(** * crl/updater: the CRL updater of Boulder

    A shallow embedding of [crl/updater/updater.go]: the constructor
    [NewUpdater], the shard window computation [getWindowForShard], the
    per-issuer pass [tickIssuer] and the pass over all issuers [tick],
    followed by the properties of the design document stated against them. *)

From stdpp Require Import base option list gmap strings.
From Stdlib Require Import ZArith Lia.

Local Open Scope Z_scope.

(** ** Go's [int64] *)

Module Int64.

Definition min : Z := - 2 ^ 63.
Definition max : Z := 2 ^ 63 - 1.

Definition in_range (z : Z) : Prop := min <= z <= max.

(** Two's complement wrap-around of an exact result. *)
Definition wrap (z : Z) : Z := (z + 2 ^ 63) mod 2 ^ 64 - 2 ^ 63.

Definition add (a b : Z) : Z := wrap (a + b).
Definition neg (a : Z) : Z := wrap (- a).
Definition mul (a b : Z) : Z := wrap (a * b).

(** [a % b] and [a / b] truncate towards zero; a zero divisor is a
    run-time panic, which [None] stands for. *)
Definition rem (a b : Z) : option Z :=
  if decide (b = 0) then None else Some (Z.rem a b).
Definition quot (a b : Z) : option Z :=
  if decide (b = 0) then None else Some (wrap (Z.quot a b)).

End Int64.

(** ** Go's [time] package, as far as the updater uses it

    A [Time] is an instant, counted in nanoseconds from the zero value
    [time.Time{}] (January 1, year 1, 00:00 UTC).  A [Duration] is an [int64]
    count of nanoseconds, so it spans about 292 years either way.  Instants
    themselves reach much further than durations (Go keeps 64 bits of
    seconds); that outer bound is not modelled.  [Add] is exact, and [Sub]
    saturates at the ends of the [Duration] range, as the package documents. *)

Module time.

Abbreviation Duration := Z (only parsing).
Abbreviation Time := Z (only parsing).

Definition zero : Time := 0.

Definition Nanosecond : Duration := 1.
Definition Second : Duration := 1000000000.
Definition Hour : Duration := 3600 * Second.

Definition Nanoseconds (d : Duration) : Z := d.

Definition Add (t : Time) (d : Duration) : Time := t + d.

Definition Sub (t u : Time) : Duration :=
  if t - u <? Int64.min then Int64.min
  else if Int64.max <? t - u then Int64.max
  else t - u.

Definition Before (t u : Time) : bool := t <? u.

(** Seconds between the zero value and the Unix epoch. *)
Definition unixToInternal : Z := 62135596800.

Definition UnixNano (t : Time) : Z := Int64.wrap (t - unixToInternal * Second).

End time.

(** ** Outcomes of a call: a returned value, or a run-time panic *)

Inductive outcome (A : Type) : Type :=
| Returns (a : A)
| Panics.
Arguments Returns {A} a.
Arguments Panics {A}.

(** ** Messages exchanged with the collaborators *)

(** An error value of a collaborator, by its text. *)
Abbreviation error := string (only parsing).

Record CRLEntry := {
  Serial : string;
  Reason : Z;
  RevokedAt : Z
}.

Record GetRevokedCertsRequest := {
  IssuerNameID : Z;
  ExpiresAfter : Z;
  ExpiresBefore : Z;
  RevokedBefore : Z
}.

Record CRLMetadata := {
  Metadata_IssuerNameID : Z;
  ThisUpdate : Z
}.

Inductive GenerateCRLRequest :=
| GenerateCRLRequest_Metadata (m : CRLMetadata)
| GenerateCRLRequest_Entry (e : CRLEntry).

(** What [Recv] on a stream gives: a message, [io.EOF], or another error. *)
Inductive recv (A : Type) : Type :=
| Msg (a : A)
| EOF
| RecvErr (e : error).
Arguments Msg {A} a.
Arguments EOF {A}.
Arguments RecvErr {A} e.

(** A server stream is finite: the messages it delivers, in order, and how it
    ends ([None] is [io.EOF]). *)
Record stream (A : Type) := {
  items : list A;
  fin : option error
}.
Arguments items {A} s.
Arguments fin {A} s.

(** The errors this package builds with [fmt.Errorf], one constructor for
    each call, carrying the arguments of its format string. *)
Inductive updaterError :=
| ErrNumShards (numShards : Z)
    (* "must have positive number of shards, got: %d" *)
| ErrUpdatePeriod (updatePeriod : Z)
    (* "must update CRLs at least every 7 days, got: %s" *)
| ErrWindow (window numShards : Z)
    (* "total window (lookback+lookforward=%dns) must be evenly divisible by numShards (%d)" *)
| ErrConnectSA (shardID : Z) (err : error)
    (* "error connecting to SA for shard %d: %s" *)
| ErrConnectCA (shardID : Z) (err : error)
    (* "error connecting to CA for shard %d: %s" *)
| ErrSendMetadata (shardID : Z) (err : error)
    (* "error sending CA metadata for shard %d: %s" *)
| ErrRecvEntry (shardID : Z) (err : error)
    (* "error retrieving entry from SA for shard %d: %s" *)
| ErrSendEntry (shardID : Z) (err : error)
    (* "error sending entry to CA for shard %d: %s" *)
| ErrReadCRL (shardID : Z) (err : error)
    (* "failed to read CRL bytes for shard %d: %s" *)
| ErrParseCRL (shardID : Z) (err : error)
    (* "failed to parse CRL bytes for shard %d: %s" *)
| ErrCheckSignature (shardID : Z) (err : error).
    (* "failed to validate signature for shard %d: %s" *)

(** ** What the updater does to the outside world

    Every call on a collaborator, on the clock, on the metrics and on the log
    is an event; a run is the list of its events, oldest first. *)
Inductive Event :=
| EvNow (t : Z)
| EvGetRevokedCerts (req : GetRevokedCertsRequest)
| EvSARecv (r : recv CRLEntry)
| EvGenerateCRL
| EvCASend (m : GenerateCRLRequest)
| EvCARecv (r : recv (list Byte.byte))
| EvParseDERCRL (der : list Byte.byte)
| EvCheckCRLSignature (issuer : Z)
| EvObserve (issuer result : string) (elapsed : Z)
| EvAuditErr (commonName : string) (atTime : Z) (err : updaterError)
| EvDebug (commonName : string) (shardID : Z) (entries : nat).

(** ** The collaborators

    A collaborator answers as a function of the run so far, which lets it
    keep state between calls.  The generation stream answers by what has been
    sent on it. *)

Record StorageAuthorityClient := {
  GetRevokedCerts : list Event -> GetRevokedCertsRequest -> error + stream CRLEntry
}.

Record GenerateCRLClient := {
  Send : list GenerateCRLRequest -> GenerateCRLRequest -> option error;
  Output : list GenerateCRLRequest -> stream (list Byte.byte)
}.

Record CRLGeneratorClient := {
  GenerateCRL : list Event -> error + GenerateCRLClient
}.

Record Clock := {
  Now : list Event -> Z
}.

(** [prometheus.Registerer].  [Register] answers a collector, given by its
    name, with an error or with none, as a function of the collectors this
    caller has registered before; [MustRegister] panics on an error. *)
Record Registerer := {
  Register : list string -> string -> option string
}.

Definition MustRegister (stats : Registerer) (registered : list string)
    (name : string) : outcome unit :=
  match Register stats registered name with
  | None => Returns tt
  | Some _ => Panics
  end.

(** [crypto/x509]: the parsed list and [ParseDERCRL] are taken as given. *)
Class X509 := {
  CertificateList : Type;
  ParseDERCRL : list Byte.byte -> error + CertificateList;
  RevokedCertificates : CertificateList -> nat
}.

Section Updater.

Context `{X509}.

(** [issuance.Certificate], by what the updater reads of it. *)
Record Certificate := {
  NameID : Z;
  Subject_CommonName : string;
  CheckCRLSignature : CertificateList -> option error
}.

Record crlUpdater := {
  issuers : gmap Z Certificate;
  numShards : Z;
  lookbackPeriod : Z;
  lookforwardPeriod : Z;
  updatePeriod : Z;
  sa : StorageAuthorityClient;
  ca : CRLGeneratorClient;
  tickHistogram : string;
  generatedCounter : string;
  clk : Clock
}.

(** ** NewUpdater

    The two collectors are registered with [stats] under the names kept in
    the updater, the histogram first; a registry that refuses one makes
    [MustRegister], and with it the constructor, panic. *)

Definition issuersByNameID (l : list Certificate) : gmap Z Certificate :=
  foldl (fun m issuer => <[NameID issuer := issuer]> m) ∅ l.

Definition NewUpdater
    (issuers : list Certificate)
    (numShards : Z)
    (lookbackPeriod lookforwardPeriod updatePeriod : Z)
    (sa : StorageAuthorityClient)
    (ca : CRLGeneratorClient)
    (stats : Registerer)
    (clk : Clock) : outcome (updaterError + crlUpdater) :=
  let issuersByNameID := issuersByNameID issuers in
  if numShards <? 1 then Returns (inl (ErrNumShards numShards))
  else if 7 * 24 * time.Hour <=? updatePeriod then
    Returns (inl (ErrUpdatePeriod updatePeriod))
  else
    let window := Int64.add lookbackPeriod lookforwardPeriod in
    match Int64.rem (time.Nanoseconds window) numShards with
    | None => Panics
    | Some r =>
      if negb (r =? 0) then
        Returns (inl (ErrWindow (time.Nanoseconds window) numShards))
      else
        let tickHistogram := "crl_updater_ticks"%string in
        match MustRegister stats [] tickHistogram with
        | Panics => Panics
        | Returns _ =>
          let generatedCounter := "crl_updater_generated"%string in
          match MustRegister stats [tickHistogram] generatedCounter with
          | Panics => Panics
          | Returns _ =>
            Returns (inr {|
              issuers := issuersByNameID;
              numShards := numShards;
              lookbackPeriod := lookbackPeriod;
              lookforwardPeriod := lookforwardPeriod;
              updatePeriod := updatePeriod;
              sa := sa;
              ca := ca;
              tickHistogram := tickHistogram;
              generatedCounter := generatedCounter;
              clk := clk |})
          end
        end
    end.

(** ** getWindowForShard *)

Definition getWindowForShard (cu : crlUpdater) (atTime : Z) (shardID : Z)
    : option (Z * Z) :=
  shardID ← Int64.rem shardID (numShards cu);
  let windowWidth := Int64.add (lookbackPeriod cu) (lookforwardPeriod cu) in
  atTimeOffset ← Int64.rem (time.Nanoseconds (time.Sub atTime time.zero))
                           (time.Nanoseconds windowWidth);
  let zeroStart := time.Add atTime (Int64.neg atTimeOffset) in
  shardWidth ← Int64.quot (time.Nanoseconds windowWidth) (numShards cu);
  let shardOffset := Int64.mul shardID (time.Nanoseconds shardWidth) in
  let shardStart := time.Add zeroStart shardOffset in
  let shardEnd := time.Add shardStart shardWidth in
  if time.Before shardEnd (time.Add atTime (Int64.neg (lookbackPeriod cu)))
  then Some (time.Add shardStart windowWidth, time.Add shardEnd windowWidth)
  else Some (shardStart, shardEnd).


(** ** Runs: the events so far are threaded through every call *)

Definition M (A : Type) : Type := list Event -> list Event * outcome A.

Definition ret {A} (a : A) : M A := fun h => (h, Returns a).

Definition bind {A B} (m : M A) (k : A -> M B) : M B := fun h =>
  match m h with
  | (h', Returns a) => k a h'
  | (h', Panics) => (h', Panics)
  end.

Definition panic {A} : M A := fun h => (h, Panics).

Definition emit (e : Event) : M unit := fun h => (h ++ [e], Returns tt).

(** A call on a collaborator: the event is recorded and the collaborator
    answers from the run before the call. *)
Definition call {A} (e : Event) (answer : list Event -> A) : M A :=
  fun h => (h ++ [e], Returns (answer h)).

(** [defer body d]: [d] runs when [body] returns and also when it panics; it
    is told which, and a panic of [body] goes on after it. *)
Definition defer {A} (body : M A) (d : outcome A -> M unit) : M A := fun h =>
  match body h with
  | (h', Returns a) =>
      match d (Returns a) h' with
      | (h'', Returns _) => (h'', Returns a)
      | (h'', Panics) => (h'', Panics)
      end
  | (h', Panics) => (fst (d Panics h'), Panics)
  end.

Notation "x <- m ;; k" := (bind m (fun x => k))
  (at level 100, m at next level, right associativity).
Notation "m ;;; k" := (bind m (fun _ => k))
  (at level 100, right associativity).

Definition clkNow (cu : crlUpdater) : M Z := fun h =>
  let t := Now (clk cu) h in (h ++ [EvNow t], Returns t).

(** ** tickIssuer *)

(** The loop that reads the entries of the data source and sends each to the
    generation stream; [sent] is what the stream has been sent so far.  It
    ends with the error the enclosing function returns, or with [sent]. *)
Fixpoint relayEntries (caStream : GenerateCRLClient) (shardID : Z)
    (sent : list GenerateCRLRequest) (entries : list CRLEntry)
    (fin : option error) : M (updaterError + list GenerateCRLRequest) :=
  match entries with
  | [] =>
      match fin with
      | None => emit (EvSARecv EOF) ;;; ret (inr sent)
      | Some err =>
          emit (EvSARecv (RecvErr err)) ;;; ret (inl (ErrRecvEntry shardID err))
      end
  | entry :: rest =>
      emit (EvSARecv (Msg entry)) ;;;
      let m := GenerateCRLRequest_Entry entry in
      emit (EvCASend m) ;;;
      match Send caStream sent m with
      | Some err => ret (inl (ErrSendEntry shardID err))
      | None => relayEntries caStream shardID (sent ++ [m]) rest fin
      end
  end.

(** The loop that reads the output of the generation stream and appends each
    chunk to [crlBytes]. *)
Fixpoint readChunks (shardID : Z) (crlBytes : list Byte.byte)
    (chunks : list (list Byte.byte)) (fin : option error)
    : M (updaterError + list Byte.byte) :=
  match chunks with
  | [] =>
      match fin with
      | None => emit (EvCARecv EOF) ;;; ret (inr crlBytes)
      | Some err =>
          emit (EvCARecv (RecvErr err)) ;;; ret (inl (ErrReadCRL shardID err))
      end
  | out :: rest =>
      emit (EvCARecv (Msg out)) ;;;
      readChunks shardID (crlBytes ++ out) rest fin
  end.

(** One turn of the loop over the shards.  [Some err] is [return err], which
    leaves [tickIssuer]; [None] is the end of the turn. *)
Definition tickIssuer_shard (cu : crlUpdater) (atTime : Z) (id : Z)
    (shardID : Z) : M (option updaterError) :=
  match getWindowForShard cu atTime shardID with
  | None => panic
  | Some (expiresAfter, expiresBefore) =>
    let req := {| IssuerNameID := id;
                  ExpiresAfter := time.UnixNano expiresAfter;
                  ExpiresBefore := time.UnixNano expiresBefore;
                  RevokedBefore := time.UnixNano atTime |} in
    saStream <- call (EvGetRevokedCerts req)
                     (fun h => GetRevokedCerts (sa cu) h req) ;;
    match saStream with
    | inl err => ret (Some (ErrConnectSA shardID err))
    | inr saStream =>
      caStream <- call EvGenerateCRL (GenerateCRL (ca cu)) ;;
      match caStream with
      | inl err => ret (Some (ErrConnectCA shardID err))
      | inr caStream =>
        let metadata := GenerateCRLRequest_Metadata
              {| Metadata_IssuerNameID := id;
                 ThisUpdate := time.UnixNano atTime |} in
        emit (EvCASend metadata) ;;;
        match Send caStream [] metadata with
        | Some err => ret (Some (ErrSendMetadata shardID err))
        | None =>
          sent <- relayEntries caStream shardID [metadata]
                    (items saStream) (fin saStream) ;;
          match sent with
          | inl err => ret (Some err)
          | inr sent =>
            let out := Output caStream sent in
            crlBytes <- readChunks shardID [] (items out) (fin out) ;;
            match crlBytes with
            | inl err => ret (Some err)
            | inr crlBytes =>
              emit (EvParseDERCRL crlBytes) ;;;
              match ParseDERCRL crlBytes with
              | inl err => ret (Some (ErrParseCRL shardID err))
              | inr crl =>
                match issuers cu !! id with
                | None => panic
                | Some issuer =>
                  emit (EvCheckCRLSignature id) ;;;
                  match CheckCRLSignature issuer crl with
                  | Some err => ret (Some (ErrCheckSignature shardID err))
                  | None =>
                    emit (EvDebug (Subject_CommonName issuer) shardID
                                  (RevokedCertificates crl)) ;;;
                    ret None
                  end
                end
              end
            end
          end
        end
      end
    end
  end.

(** [for shardID := int64(0); shardID < cu.numShards; shardID++]: [n] turns
    are left, the next one is for [shardID]. *)
Fixpoint tickIssuer_shards (cu : crlUpdater) (atTime : Z) (id : Z)
    (shardID : Z) (n : nat) : M (option updaterError) :=
  match n with
  | O => ret None
  | S n' =>
      err <- tickIssuer_shard cu atTime id shardID ;;
      match err with
      | Some err => ret (Some err)
      | None => tickIssuer_shards cu atTime id (shardID + 1) n'
      end
  end.

(** The label [result] holds when the function is left: every return of an
    error sets it to "failed" first, and it is "success" otherwise, also
    when the function is left by a panic. *)
Definition resultLabel (o : outcome (option updaterError)) : string :=
  match o with
  | Returns (Some _) => "failed"
  | _ => "success"
  end.

Definition tickIssuer (cu : crlUpdater) (atTime : Z) (id : Z)
    : M (option updaterError) :=
  start <- clkNow cu ;;
  defer (tickIssuer_shards cu atTime id 0 (Z.to_nat (numShards cu)))
    (fun o =>
       match issuers cu !! id with
       | None => panic
       | Some issuer =>
           now <- clkNow cu ;;
           emit (EvObserve (Subject_CommonName issuer) (resultLabel o)
                           (time.Sub now start))
       end).

(** ** tick

    [range] over a Go map visits the entries in an order that is not
    specified: [tick_over] is the tick for a given order, and [tick] relates
    a tick to each of its runs. *)
Fixpoint tick_issuers (cu : crlUpdater) (l : list (Z * Certificate))
    (result : string) : list Event -> list Event * (string * outcome unit) :=
  fun h =>
  match l with
  | [] => (h, (result, Returns tt))
  | (id, iss) :: rest =>
      match (atTime <- clkNow cu ;;
             err <- tickIssuer cu atTime id ;;
             ret (atTime, err)) h with
      | (h', Panics) => (h', (result, Panics))
      | (h', Returns (atTime, None)) => tick_issuers cu rest result h'
      | (h', Returns (atTime, Some err)) =>
          tick_issuers cu rest "failed"
            (h' ++ [EvAuditErr (Subject_CommonName iss) atTime err])
      end
  end.

Definition tick_over (cu : crlUpdater) (l : list (Z * Certificate)) : M unit :=
  fun h =>
  let start := Now (clk cu) h in
  let h := h ++ [EvNow start] in
  let '(h, (result, o)) := tick_issuers cu l "success" h in
  let now := Now (clk cu) h in
  (h ++ [EvNow now; EvObserve "all" result (time.Sub now start)], o).

(** The runs of one tick: [range] may visit the entries of the map in any
    order. *)
Definition tick (cu : crlUpdater) (h : list Event)
    (r : list Event * outcome unit) : Prop :=
  exists order, order ≡ₚ map_to_list (issuers cu) /\ r = tick_over cu order h.

(** ** Run

    [Run] does not return.  [time.Tick] gives no channel for a period that is
    not positive, and the loop then waits for ever; otherwise the loop calls
    [tick] for each value it receives from the ticker.  [Run cu firings h r]
    says that [r] is a run up to the point where [firings] values have been
    received and handled; a panic of [tick] ends it. *)
Fixpoint Run_ticks (cu : crlUpdater) (firings : nat) (h : list Event)
    (r : list Event * outcome unit) : Prop :=
  match firings with
  | O => r = (h, Returns tt)
  | S n =>
      exists r1, tick cu h r1
        /\ match snd r1 with
           | Returns _ => Run_ticks cu n (fst r1) r
           | Panics => r = r1
           end
  end.

Definition Run (cu : crlUpdater) (firings : nat) (h : list Event)
    (r : list Event * outcome unit) : Prop :=
  if updatePeriod cu <=? 0 then r = (h, Returns tt)
  else Run_ticks cu firings h r.

End Updater.

(** ** The notions the properties are stated with *)

Section Notions.

Context `{X509}.

(** The total window and the width of one shard, as the code computes them. *)
Definition windowWidth (cu : crlUpdater) : Z :=
  Int64.add (lookbackPeriod cu) (lookforwardPeriod cu).

Definition shardWidth (cu : crlUpdater) : Z :=
  Z.quot (windowWidth cu) (numShards cu).

(** The window of expiry times observed at [atTime]. *)
Definition observed (cu : crlUpdater) (atTime : Z) : Z * Z :=
  (atTime - lookbackPeriod cu, atTime + lookforwardPeriod cu).

(** Two half-open intervals share an instant. *)
Definition overlaps (a b : Z * Z) : Prop :=
  Z.max (fst a) (fst b) < Z.min (snd a) (snd b).


(** The chunk with ID [k] of the [j]-th cycle counted from the zero time. *)
Definition chunk (cu : crlUpdater) (k j : Z) : Z * Z :=
  (j * windowWidth cu + k * shardWidth cu,
   j * windowWidth cu + (k + 1) * shardWidth cu).

(** What construction checks of the shard count and the window. *)
Definition configured (cu : crlUpdater) : Prop :=
  1 <= numShards cu /\ Z.rem (windowWidth cu) (numShards cu) = 0.

(** The request for one shard, and the metadata message of one run. *)
Definition requestFor (cu : crlUpdater) (atTime id shardID : Z)
    : option GetRevokedCertsRequest :=
  w ← getWindowForShard cu atTime shardID;
  Some {| IssuerNameID := id;
          ExpiresAfter := time.UnixNano (fst w);
          ExpiresBefore := time.UnixNano (snd w);
          RevokedBefore := time.UnixNano atTime |}.

Definition metadataFor (atTime id : Z) : GenerateCRLRequest :=
  GenerateCRLRequest_Metadata
    {| Metadata_IssuerNameID := id; ThisUpdate := time.UnixNano atTime |}.

(** The generation stream takes each of [ms] in turn, after [sent]. *)
Fixpoint accepts (caStream : GenerateCRLClient)
    (sent ms : list GenerateCRLRequest) : Prop :=
  match ms with
  | [] => True
  | m :: rest => Send caStream sent m = None
                 /\ accepts caStream (sent ++ [m]) rest
  end.

(** The events of a turn that reads [entries] and then [chunks], up to the
    signature check, and those of a successful turn, which goes on to log
    the [n] entries of the list it parsed. *)
Definition relayEvents (entries : list CRLEntry) : list Event :=
  flat_map (fun entry => [EvSARecv (Msg entry);
                          EvCASend (GenerateCRLRequest_Entry entry)]) entries.

Definition checkedEvents (req : GetRevokedCertsRequest) (atTime id : Z)
    (entries : list CRLEntry) (chunks : list (list Byte.byte)) : list Event :=
  [EvGetRevokedCerts req; EvGenerateCRL; EvCASend (metadataFor atTime id)]
  ++ relayEvents entries ++ [EvSARecv EOF]
  ++ map (fun out => EvCARecv (Msg out)) chunks ++ [EvCARecv EOF]
  ++ [EvParseDERCRL (concat chunks); EvCheckCRLSignature id].

Definition shardEvents (req : GetRevokedCertsRequest) (atTime id shardID : Z)
    (entries : list CRLEntry) (chunks : list (list Byte.byte))
    (commonName : string) (n : nat) : list Event :=
  checkedEvents req atTime id entries chunks ++ [EvDebug commonName shardID n].

(** What a run sent to the generation service. *)
Definition sentMessages (evs : list Event) : list GenerateCRLRequest :=
  omap (fun e => match e with EvCASend m => Some m | _ => None end) evs.

(** A shard was attempted: its request went to the data source.  A shard was
    reported complete: the updater logged its list. *)
Definition attempted (h : list Event) (req : GetRevokedCertsRequest) : Prop :=
  In (EvGetRevokedCerts req) h.

Definition reportedComplete (h : list Event) (commonName : string)
    (shardID : Z) : Prop :=
  exists n, In (EvDebug commonName shardID n) h.

(** What a run asked of the data source, which shards it logged as complete,
    what it observed in the tick histogram (issuer and result), and which
    errors it wrote to the audit log; each in the order of the run. *)
Definition requestsOf (evs : list Event) : list GetRevokedCertsRequest :=
  omap (fun e => match e with EvGetRevokedCerts r => Some r | _ => None end) evs.

Definition reportedShards (evs : list Event) : list Z :=
  omap (fun e => match e with EvDebug _ k _ => Some k | _ => None end) evs.

Definition observations (evs : list Event) : list (string * string) :=
  omap (fun e => match e with EvObserve i r _ => Some (i, r) | _ => None end) evs.

Definition auditErrors (evs : list Event) : list updaterError :=
  omap (fun e => match e with EvAuditErr _ _ err => Some err | _ => None end) evs.

(** The events of the streams of one shard, and those of a shard. *)
Definition streamEvent (e : Event) : Prop :=
  match e with
  | EvNow _ | EvObserve _ _ _ | EvAuditErr _ _ _ | EvGetRevokedCerts _ => False
  | _ => True
  end.

Definition shardEvent (e : Event) : Prop :=
  match e with
  | EvNow _ | EvObserve _ _ _ | EvAuditErr _ _ _ => False
  | _ => True
  end.

(** A stage of the turn for shard [k] fails, told by the answers of the
    collaborators alone: [stageFails cu atTime id k h h' err] gives, for a
    turn that starts after the run [h], the run [h'] at the point of the
    failure and the error of the stage.  The stages are those of the loop
    body, in its order: opening the stream of the data source, opening the
    stream of the generation service, sending the metadata, reading an
    entry, sending an entry, reading the output, parsing it, and checking
    the signature. *)
Inductive stageFails (cu : crlUpdater) (atTime id k : Z) (h : list Event)
    : list Event -> updaterError -> Prop :=
| FailOpenSA req e :
    requestFor cu atTime id k = Some req ->
    GetRevokedCerts (sa cu) h req = inl e ->
    stageFails cu atTime id k h
      (h ++ [EvGetRevokedCerts req]) (ErrConnectSA k e)
| FailOpenCA req saStream e :
    requestFor cu atTime id k = Some req ->
    GetRevokedCerts (sa cu) h req = inr saStream ->
    GenerateCRL (ca cu) (h ++ [EvGetRevokedCerts req]) = inl e ->
    stageFails cu atTime id k h
      (h ++ [EvGetRevokedCerts req; EvGenerateCRL]) (ErrConnectCA k e)
| FailSendMetadata req saStream caStream e :
    requestFor cu atTime id k = Some req ->
    GetRevokedCerts (sa cu) h req = inr saStream ->
    GenerateCRL (ca cu) (h ++ [EvGetRevokedCerts req]) = inr caStream ->
    Send caStream [] (metadataFor atTime id) = Some e ->
    stageFails cu atTime id k h
      (h ++ [EvGetRevokedCerts req; EvGenerateCRL;
             EvCASend (metadataFor atTime id)])
      (ErrSendMetadata k e)
| FailRecvEntry req saStream caStream e :
    requestFor cu atTime id k = Some req ->
    GetRevokedCerts (sa cu) h req = inr saStream ->
    GenerateCRL (ca cu) (h ++ [EvGetRevokedCerts req]) = inr caStream ->
    accepts caStream []
      (metadataFor atTime id
       :: map GenerateCRLRequest_Entry (items saStream)) ->
    fin saStream = Some e ->
    stageFails cu atTime id k h
      (h ++ [EvGetRevokedCerts req; EvGenerateCRL;
             EvCASend (metadataFor atTime id)]
         ++ relayEvents (items saStream) ++ [EvSARecv (RecvErr e)])
      (ErrRecvEntry k e)
| FailSendEntry req saStream caStream pre entry post e :
    requestFor cu atTime id k = Some req ->
    GetRevokedCerts (sa cu) h req = inr saStream ->
    GenerateCRL (ca cu) (h ++ [EvGetRevokedCerts req]) = inr caStream ->
    items saStream = pre ++ entry :: post ->
    accepts caStream []
      (metadataFor atTime id :: map GenerateCRLRequest_Entry pre) ->
    Send caStream
         (metadataFor atTime id :: map GenerateCRLRequest_Entry pre)
         (GenerateCRLRequest_Entry entry) = Some e ->
    stageFails cu atTime id k h
      (h ++ [EvGetRevokedCerts req; EvGenerateCRL;
             EvCASend (metadataFor atTime id)]
         ++ relayEvents pre
         ++ [EvSARecv (Msg entry);
             EvCASend (GenerateCRLRequest_Entry entry)])
      (ErrSendEntry k e)
| FailReadCRL req saStream caStream e :
    requestFor cu atTime id k = Some req ->
    GetRevokedCerts (sa cu) h req = inr saStream ->
    fin saStream = None ->
    GenerateCRL (ca cu) (h ++ [EvGetRevokedCerts req]) = inr caStream ->
    accepts caStream []
      (metadataFor atTime id
       :: map GenerateCRLRequest_Entry (items saStream)) ->
    let out := Output caStream
      (metadataFor atTime id
       :: map GenerateCRLRequest_Entry (items saStream)) in
    fin out = Some e ->
    stageFails cu atTime id k h
      (h ++ [EvGetRevokedCerts req; EvGenerateCRL;
             EvCASend (metadataFor atTime id)]
         ++ relayEvents (items saStream) ++ [EvSARecv EOF]
         ++ map (fun c => EvCARecv (Msg c)) (items out)
         ++ [EvCARecv (RecvErr e)])
      (ErrReadCRL k e)
| FailParse req saStream caStream e :
    requestFor cu atTime id k = Some req ->
    GetRevokedCerts (sa cu) h req = inr saStream ->
    fin saStream = None ->
    GenerateCRL (ca cu) (h ++ [EvGetRevokedCerts req]) = inr caStream ->
    accepts caStream []
      (metadataFor atTime id
       :: map GenerateCRLRequest_Entry (items saStream)) ->
    let out := Output caStream
      (metadataFor atTime id
       :: map GenerateCRLRequest_Entry (items saStream)) in
    fin out = None ->
    ParseDERCRL (concat (items out)) = inl e ->
    stageFails cu atTime id k h
      (h ++ [EvGetRevokedCerts req; EvGenerateCRL;
             EvCASend (metadataFor atTime id)]
         ++ relayEvents (items saStream) ++ [EvSARecv EOF]
         ++ map (fun c => EvCARecv (Msg c)) (items out)
         ++ [EvCARecv EOF; EvParseDERCRL (concat (items out))])
      (ErrParseCRL k e)
| FailSignature req saStream caStream crl issuer e :
    requestFor cu atTime id k = Some req ->
    GetRevokedCerts (sa cu) h req = inr saStream ->
    fin saStream = None ->
    GenerateCRL (ca cu) (h ++ [EvGetRevokedCerts req]) = inr caStream ->
    accepts caStream []
      (metadataFor atTime id
       :: map GenerateCRLRequest_Entry (items saStream)) ->
    let out := Output caStream
      (metadataFor atTime id
       :: map GenerateCRLRequest_Entry (items saStream)) in
    fin out = None ->
    ParseDERCRL (concat (items out)) = inr crl ->
    issuers cu !! id = Some issuer ->
    CheckCRLSignature issuer crl = Some e ->
    stageFails cu atTime id k h
      (h ++ checkedEvents req atTime id (items saStream) (items out))
      (ErrCheckSignature k e).

End Notions.

(** ** Collaborators and updaters for the concrete scenarios *)

Module Scenario.

(** A stand-in for [crypto/x509]: an encoding is two bytes, the key that
    signed and the number of entries. *)
Record toyCRL := { signer : Byte.byte; revoked : nat }.

#[export] Instance toyX509 : X509 := {|
  CertificateList := toyCRL;
  ParseDERCRL der :=
    match der with
    | [s; c] => inr {| signer := s; revoked := Byte.to_nat c |}
    | _ => inl "asn1: syntax error"%string
    end;
  RevokedCertificates := revoked
|}.

Definition toyCertificate (id : Z) (cn : string) (key : Byte.byte)
    : Certificate := {|
  NameID := id;
  Subject_CommonName := cn;
  CheckCRLSignature crl :=
    if Byte.eqb (signer crl) key then None
    else Some "crypto/rsa: verification error"%string
|}.

Definition downSA : StorageAuthorityClient :=
  {| GetRevokedCerts _ _ := inl "unavailable"%string |}.
Definition downCA : CRLGeneratorClient :=
  {| GenerateCRL _ := inl "unavailable"%string |}.
Definition fixedClock (t : Z) : Clock := {| Now _ := t |}.

(** An updater with the given shard count and periods. *)
Definition windowsOnly (n lookback lookforward : Z) : crlUpdater := {|
  issuers := ∅;
  numShards := n;
  lookbackPeriod := lookback;
  lookforwardPeriod := lookforward;
  updatePeriod := time.Hour;
  sa := downSA;
  ca := downCA;
  tickHistogram := "crl_updater_ticks";
  generatedCounter := "crl_updater_generated";
  clk := fixedClock 0
|}.

(** *** One issuer, two shards, the wrong signer on shard 0

    Lookback 0, lookforward 10 ns, the clock at the Unix epoch: shard 0
    is asked for expiries in [3,8) and shard 1 in [-2,3), as Unix
    nanoseconds.  The data source has three entries for shard 0 and none
    for shard 1.  The generation service answers three entries with a list
    signed by key 2, in two chunks, and no entry with an empty list signed
    by key 1, the key of the issuer. *)

Definition epoch : Z := time.unixToInternal * time.Second.

Definition entry (serial : string) : CRLEntry :=
  {| Serial := serial; Reason := 1; RevokedAt := -5 |}.

Definition threeEntries : list CRLEntry :=
  [entry "0a"; entry "0b"; entry "0c"].

Definition shardedSA : StorageAuthorityClient := {|
  GetRevokedCerts _ req :=
    if ExpiresAfter req =? 3
    then inr {| items := threeEntries; fin := None |}
    else inr {| items := []; fin := None |}
|}.

Definition echoStream : GenerateCRLClient := {|
  Send _ _ := None;
  Output sent :=
    match sent with
    | [_] => {| items := [[Byte.x01; Byte.x00]]; fin := None |}
    | _ => {| items := [[Byte.x02]; [Byte.x03]]; fin := None |}
    end
|}.

Definition echoCA : CRLGeneratorClient :=
  {| GenerateCRL _ := inr echoStream |}.

Definition issuerA : Certificate := toyCertificate 1 "Issuer A" Byte.x01.
Definition issuerB : Certificate := toyCertificate 2 "Issuer B" Byte.x01.

Definition endToEnd : crlUpdater := {|
  issuers := {[ 1 := issuerA ]};
  numShards := 2;
  lookbackPeriod := 0;
  lookforwardPeriod := 10;
  updatePeriod := time.Hour;
  sa := shardedSA;
  ca := echoCA;
  tickHistogram := "crl_updater_ticks";
  generatedCounter := "crl_updater_generated";
  clk := fixedClock epoch
|}.

(** *** Two issuers, a transport error while reading shard 0 of issuer A

    The data source breaks off the stream of the first shard of issuer 1
    after one entry; every other stream is empty and ends well.  The
    generation service answers with an empty list signed by key 1, the key
    of both issuers. *)

Definition flakySA : StorageAuthorityClient := {|
  GetRevokedCerts _ req :=
    if (IssuerNameID req =? 1) && (ExpiresAfter req =? 3)
    then inr {| items := [entry "0a"];
                fin := Some "transport is closing"%string |}
    else inr {| items := []; fin := None |}
|}.

Definition twoIssuers : crlUpdater := {|
  issuers := {[ 1 := issuerA; 2 := issuerB ]};
  numShards := 2;
  lookbackPeriod := 0;
  lookforwardPeriod := 10;
  updatePeriod := time.Hour;
  sa := flakySA;
  ca := echoCA;
  tickHistogram := "crl_updater_ticks";
  generatedCounter := "crl_updater_generated";
  clk := fixedClock epoch
|}.

(** *** Registries

    A registry refuses a collector whose name it holds already. *)

Definition registryWith (held : list string) : Registerer := {|
  Register registered name :=
    if existsb (String.eqb name) (held ++ registered)
    then Some "duplicate metrics collector registration attempted"%string
    else None
|}.

Definition freshRegistry : Registerer := registryWith [].

(** *** The end-to-end scenario with the key that signed shard 0 *)

Definition issuerA2 : Certificate := toyCertificate 1 "Issuer A" Byte.x02.

Definition matching : crlUpdater := {|
  issuers := {[ 1 := issuerA2 ]};
  numShards := 2;
  lookbackPeriod := 0;
  lookforwardPeriod := 10;
  updatePeriod := time.Hour;
  sa := shardedSA;
  ca := echoCA;
  tickHistogram := "crl_updater_ticks";
  generatedCounter := "crl_updater_generated";
  clk := fixedClock epoch
|}.

(** *** A generation service that refuses the metadata *)

Definition deafStream : GenerateCRLClient := {|
  Send _ _ := Some "stream closed"%string;
  Output _ := {| items := []; fin := None |}
|}.

Definition deafCA : CRLGeneratorClient :=
  {| GenerateCRL _ := inr deafStream |}.

(** *** A generation service that refuses the second entry *)

Definition pickyStream : GenerateCRLClient := {|
  Send sent _ := if (length sent =? 2)%nat
                 then Some "stream closed"%string else None;
  Output _ := {| items := []; fin := None |}
|}.

Definition pickyCA : CRLGeneratorClient :=
  {| GenerateCRL _ := inr pickyStream |}.

(** *** A generation service whose output is cut short *)

Definition truncatingStream : GenerateCRLClient := {|
  Send _ _ := None;
  Output _ := {| items := [[Byte.x01]]; fin := None |}
|}.

Definition truncatingCA : CRLGeneratorClient :=
  {| GenerateCRL _ := inr truncatingStream |}.

Definition withCA (caClient : CRLGeneratorClient) : crlUpdater := {|
  issuers := {[ 1 := issuerA ]};
  numShards := 2;
  lookbackPeriod := 0;
  lookforwardPeriod := 10;
  updatePeriod := time.Hour;
  sa := shardedSA;
  ca := caClient;
  tickHistogram := "crl_updater_ticks";
  generatedCounter := "crl_updater_generated";
  clk := fixedClock epoch
|}.

End Scenario.

(* ===================================================================== *)
(** * Properties *)

(** Membership in a list that is given in full. *)
Ltac none_of H :=
  repeat (destruct H as [H|H]; [discriminate H|]); exact H.

Ltac one_of := repeat (first [left; reflexivity | right]).

(** ** [int64] and [time] *)

Lemma wrap_in_range z : Int64.in_range z -> Int64.wrap z = z.
Proof.
  unfold Int64.in_range, Int64.wrap, Int64.min, Int64.max. intros Hz.
  rewrite Z.mod_small; lia.
Qed.

Lemma wrap_range z : Int64.in_range (Int64.wrap z).
Proof.
  unfold Int64.in_range, Int64.wrap, Int64.min, Int64.max.
  pose proof (Z.mod_pos_bound (z + 2 ^ 63) (2 ^ 64)). lia.
Qed.

Lemma Sub_zero_exact t :
  0 <= t <= Int64.max -> time.Sub t time.zero = t.
Proof.
  unfold time.Sub, time.zero, Int64.min, Int64.max. intros Ht.
  rewrite Z.sub_0_r.
  destruct (Z.ltb_spec t (- 2 ^ 63)); [lia|].
  destruct (Z.ltb_spec (2 ^ 63 - 1) t); lia.
Qed.

Lemma Sub_zero_saturated t :
  Int64.max <= t -> time.Sub t time.zero = Int64.max.
Proof.
  unfold time.Sub, time.zero, Int64.min, Int64.max. intros Ht.
  rewrite Z.sub_0_r.
  destruct (Z.ltb_spec t (- 2 ^ 63)); [lia|].
  destruct (Z.ltb_spec (2 ^ 63 - 1) t); lia.
Qed.

(** ** NewUpdater *)

Section Construction.

Context `{X509}.

Lemma foldl_insert_lookup (l : list Certificate) (m : gmap Z Certificate) id :
  foldl (fun m issuer => <[NameID issuer := issuer]> m) m l !! id
  = match last (filter (fun c => NameID c = id) l) with
    | Some c => Some c
    | None => m !! id
    end.
Proof.
  revert m. induction l as [|c l IH]; intros m; [reflexivity|].
  cbn [foldl]. rewrite IH.
  destruct (decide (NameID c = id)) as [Heq|Hne].
  - rewrite filter_cons_True by assumption. rewrite last_cons.
    destruct (last (filter _ l)); [reflexivity|].
    rewrite Heq. apply lookup_insert_eq.
  - rewrite filter_cons_False by assumption.
    destruct (last (filter _ l)); [reflexivity|].
    apply lookup_insert_ne. assumption.
Qed.

(** The map of the issuers holds, under each name ID, the last certificate
    of the list that has it. *)
Lemma issuersByNameID_lookup (l : list Certificate) id :
  issuersByNameID l !! id = last (filter (fun c => NameID c = id) l).
Proof.
  unfold issuersByNameID. rewrite foldl_insert_lookup.
  destruct (last _); [reflexivity | apply lookup_empty].
Qed.

(** C7, as the code has it.  [NewUpdater] returns an error, and with it no
    updater, exactly when the shard count is below 1, or the update period is
    7 days or more, or the sum of lookback and lookforward, a [Duration] in
    nanoseconds, leaves a remainder when divided by the shard count; the
    error is that of the first of these checks that fails, and it names the
    value refused.  On any other input the two collectors are registered:
    if the registry takes both, an updater is returned with the values given,
    whatever the list of issuers, its map holding for each name ID of the
    list the last certificate that has it; if the registry refuses one, the
    constructor panics.  The sum is the exact one unless it leaves the range
    of a [Duration]. *)
Theorem NewUpdater_validates (certs : list Certificate)
    (n lookback lookforward period : Z)
    (saClient : StorageAuthorityClient) (caClient : CRLGeneratorClient)
    (stats : Registerer) (clock : Clock) :
  let r := NewUpdater certs n lookback lookforward period
                      saClient caClient stats clock in
  let window := time.Nanoseconds (Int64.add lookback lookforward) in
  let rejected :=
    n < 1 \/ 7 * 24 * time.Hour <= period \/ Z.rem window n <> 0 in
  let registered :=
    Register stats [] "crl_updater_ticks" = None
    /\ Register stats ["crl_updater_ticks"%string] "crl_updater_generated"
       = None in
  ((exists err, r = Returns (inl err)) <-> rejected)
  /\ (n < 1 -> r = Returns (inl (ErrNumShards n)))
  /\ (1 <= n -> 7 * 24 * time.Hour <= period ->
      r = Returns (inl (ErrUpdatePeriod period)))
  /\ (1 <= n -> period < 7 * 24 * time.Hour -> Z.rem window n <> 0 ->
      r = Returns (inl (ErrWindow window n)))
  /\ (~ rejected -> registered ->
      exists cu, r = Returns (inr cu)
        /\ numShards cu = n
        /\ lookbackPeriod cu = lookback
        /\ lookforwardPeriod cu = lookforward
        /\ updatePeriod cu = period
        /\ sa cu = saClient /\ ca cu = caClient /\ clk cu = clock
        /\ forall id, issuers cu !! id
                      = last (filter (fun c => NameID c = id) certs))
  /\ (~ rejected -> ~ registered -> r = Panics)
  /\ (Int64.in_range (lookback + lookforward) ->
      Int64.add lookback lookforward = lookback + lookforward).
Proof.
  cbv zeta. unfold NewUpdater, Int64.rem, MustRegister.
  destruct (Z.ltb_spec n 1) as [Hn|Hn].
  { repeat split; try tauto; try lia; eauto. apply wrap_in_range. }
  destruct (Z.leb_spec (7 * 24 * time.Hour) period) as [Hu|Hu].
  { repeat split; try tauto; try lia; eauto. apply wrap_in_range. }
  destruct (decide (n = 0)) as [?|_]; [lia|].
  destruct (Z.eqb_spec
              (Z.rem (time.Nanoseconds (Int64.add lookback lookforward)) n) 0)
    as [Hr|Hr]; cbn [negb].
  2:{ repeat split; try tauto; try lia; eauto. apply wrap_in_range. }
  destruct (Register stats [] "crl_updater_ticks") as [e1|] eqn:H1.
  { repeat split; try tauto; try lia; try apply wrap_in_range.
    - intros [err Herr]. discriminate.
    - intros _ [Hreg _]. discriminate. }
  destruct (Register stats ["crl_updater_ticks"%string] "crl_updater_generated")
    as [e2|] eqn:H2.
  { repeat split; try tauto; try lia; try apply wrap_in_range.
    - intros [err Herr]. discriminate.
    - intros _ [_ Hreg]. discriminate. }
  repeat split; try tauto; try lia; try apply wrap_in_range.
  - intros [err Herr]. discriminate.
  - intros _ _. eexists. split; [reflexivity|]. cbn.
    repeat split. intros id. apply issuersByNameID_lookup.
Qed.

End Construction.

Section Windows.

Context `{X509}.

Implicit Types (cu : crlUpdater) (t k : Z).

Lemma windowWidth_le_max cu : windowWidth cu <= Int64.max.
Proof. unfold windowWidth, Int64.add. apply wrap_range. Qed.

(** With at least one shard and a positive window, the call returns, and the
    wrap-arounds of the intermediate results do not occur. *)
Lemma getWindowForShard_eq cu t k :
  1 <= numShards cu -> 0 < windowWidth cu -> 0 <= k < numShards cu ->
  getWindowForShard cu t k =
    let zeroStart := t - Z.rem (time.Sub t time.zero) (windowWidth cu) in
    let s := zeroStart + k * shardWidth cu in
    let e := s + shardWidth cu in
    if e <? t + Int64.neg (lookbackPeriod cu)
    then Some (s + windowWidth cu, e + windowWidth cu)
    else Some (s, e).
Proof.
  intros Hn HW Hk.
  pose proof (windowWidth_le_max cu) as HWmax.
  unfold getWindowForShard, shardWidth.
  fold (windowWidth cu).
  set (W := windowWidth cu) in *. set (n := numShards cu) in *.
  unfold Int64.rem, Int64.quot, time.Nanoseconds, time.Add, time.Before.
  destruct (decide (n = 0)) as [?|_]; [lia|].
  destruct (decide (W = 0)) as [?|_]; [lia|].
  cbn [mbind option_bind].
  assert (Hq : 0 <= Z.quot W n <= W).
  { rewrite Z.quot_div_nonneg by lia. split.
    - apply Z.div_pos; lia.
    - apply Z.div_le_upper_bound; nia. }
  assert (Hkq : 0 <= k * Z.quot W n <= W).
  { split; [nia|].
    rewrite Z.quot_div_nonneg in * by lia.
    pose proof (Z.mul_div_le W n ltac:(lia)). nia. }
  assert (Hr : Z.abs (Z.rem (time.Sub t time.zero) W) < W).
  { pose proof (Z.rem_bound_abs (time.Sub t time.zero) W ltac:(lia)). lia. }
  rewrite (Z.rem_small k n) by lia.
  unfold Int64.max in HWmax.
  assert (Hneg : Int64.neg (Z.rem (time.Sub t time.zero) W)
                 = - Z.rem (time.Sub t time.zero) W).
  { apply wrap_in_range. unfold Int64.in_range, Int64.min, Int64.max. lia. }
  assert (Hmul : Int64.mul k (Z.quot W n) = k * Z.quot W n).
  { apply wrap_in_range. unfold Int64.in_range, Int64.min, Int64.max. lia. }
  assert (Hsw : Int64.wrap (Z.quot W n) = Z.quot W n).
  { apply wrap_in_range. unfold Int64.in_range, Int64.min, Int64.max. lia. }
  rewrite Hsw, Hneg, Hmul. cbv zeta.
  rewrite Z.add_opp_r.
  reflexivity.
Qed.

(** Before the offset from the zero time leaves the [Duration] range, the
    candidate is the chunk of the cycle the reference time lies in. *)
Lemma getWindowForShard_cycle cu t k :
  configured cu -> 0 < windowWidth cu -> 0 <= k < numShards cu ->
  0 <= t <= Int64.max ->
  getWindowForShard cu t k =
    let c := chunk cu k (t / windowWidth cu) in
    if snd c <? t + Int64.neg (lookbackPeriod cu)
    then Some (fst c + windowWidth cu, snd c + windowWidth cu)
    else Some c.
Proof.
  intros [Hn _] HW Hk Ht.
  rewrite getWindowForShard_eq by assumption.
  rewrite Sub_zero_exact by assumption.
  rewrite Z.rem_mod_nonneg by lia.
  unfold chunk. cbn [fst snd]. cbv zeta.
  assert (Hz : t - t mod windowWidth cu = t / windowWidth cu * windowWidth cu).
  { pose proof (Z.div_mod t (windowWidth cu) ltac:(lia)). lia. }
  rewrite Hz.
  replace (t / windowWidth cu * windowWidth cu + k * shardWidth cu + shardWidth cu)
    with (t / windowWidth cu * windowWidth cu + (k + 1) * shardWidth cu) by lia.
  reflexivity.
Qed.

Lemma neg_in_range z :
  Int64.min < z <= Int64.max -> Int64.neg z = - z.
Proof.
  intros Hz. apply wrap_in_range.
  unfold Int64.in_range, Int64.min, Int64.max in *. lia.
Qed.

(** Up to 2^63-1 ns after the zero time the interval returned is a chunk of
    the grid anchored at the zero time. *)
Lemma getWindowForShard_on_grid cu t k :
  configured cu -> 0 < windowWidth cu -> 0 <= k < numShards cu ->
  0 <= t <= Int64.max ->
  exists j, getWindowForShard cu t k = Some (chunk cu k j).
Proof.
  intros Hc HW Hk Ht. rewrite getWindowForShard_cycle by assumption. cbv zeta.
  destruct (_ <? _).
  - exists (t / windowWidth cu + 1). unfold chunk. cbn [fst snd].
    f_equal. f_equal; lia.
  - eauto.
Qed.

(** A shard ID that is not negative is taken modulo the shard count. *)
Lemma getWindowForShard_normalizes cu t shardID :
  1 <= numShards cu -> 0 <= shardID ->
  getWindowForShard cu t shardID
  = getWindowForShard cu t (shardID mod numShards cu).
Proof.
  intros Hn Hs. unfold getWindowForShard, Int64.rem.
  destruct (decide (numShards cu = 0)) as [?|_]; [lia|].
  cbn [mbind option_bind].
  rewrite Z.rem_mod_nonneg by lia.
  pose proof (Z.mod_pos_bound shardID (numShards cu) ltac:(lia)).
  rewrite (Z.rem_small (shardID mod numShards cu)) by lia.
  reflexivity.
Qed.

(** C6. With lookback 0, lookforward 10 units and 5 shards: at the zero time
    shard k is [2k, 2k+2) units, so [0,2), [2,4), [4,6), [6,8), [8,10); at
    11 units shard 0 is [10,12), not shifted; and at any reference time the
    chunk of the current cycle is returned as it is unless its end is before
    the reference time, in which case it is returned 10 units later. *)
Theorem getWindowForShard_scenarios cu (u : Z) :
  0 < u -> 11 * u <= Int64.max ->
  numShards cu = 5 -> lookbackPeriod cu = 0 -> lookforwardPeriod cu = 10 * u ->
  (forall k, 0 <= k < 5 ->
     getWindowForShard cu time.zero k = Some (2 * k * u, (2 * k + 2) * u))
  /\ getWindowForShard cu (11 * u) 0 = Some (10 * u, 12 * u)
  /\ (forall t k, 0 <= t <= Int64.max -> 0 <= k < 5 ->
       let s := t / (10 * u) * (10 * u) + 2 * k * u in
       getWindowForShard cu t k =
         if s + 2 * u <? t then Some (s + 10 * u, s + 2 * u + 10 * u)
         else Some (s, s + 2 * u)).
Proof.
  intros Hu Hmax Hn Hlb Hlf.
  assert (HW : windowWidth cu = 10 * u).
  { unfold windowWidth, Int64.add. rewrite Hlb, Hlf.
    apply wrap_in_range. unfold Int64.in_range, Int64.min, Int64.max in *. lia. }
  assert (Hsw : shardWidth cu = 2 * u).
  { unfold shardWidth. rewrite HW, Hn.
    replace (10 * u) with (2 * u * 5) by lia. apply Z.quot_mul. lia. }
  assert (Hc : configured cu).
  { unfold configured. rewrite HW, Hn. split; [lia|].
    replace (10 * u) with (2 * u * 5) by lia. apply Z.rem_mul. lia. }
  assert (Hgen : forall t k, 0 <= t <= Int64.max -> 0 <= k < 5 ->
       let s := t / (10 * u) * (10 * u) + 2 * k * u in
       getWindowForShard cu t k =
         if s + 2 * u <? t then Some (s + 10 * u, s + 2 * u + 10 * u)
         else Some (s, s + 2 * u)).
  { intros t k Ht Hk. rewrite getWindowForShard_cycle by (rewrite ?HW, ?Hn; auto; lia).
    unfold chunk. rewrite HW, Hsw, Hlb. cbn [fst snd]. cbv zeta.
    change (Int64.neg 0) with 0. rewrite Z.add_0_r.
    replace (t / (10 * u) * (10 * u) + (k + 1) * (2 * u))
      with (t / (10 * u) * (10 * u) + 2 * k * u + 2 * u) by lia.
    replace (k * (2 * u)) with (2 * k * u) by lia.
    reflexivity. }
  split; [|split; [|exact Hgen]].
  - intros k Hk. unfold time.zero.
    rewrite Hgen by (unfold Int64.max in *; lia).
    rewrite Z.div_0_l by lia. cbv zeta.
    destruct (Z.ltb_spec (0 * (10 * u) + 2 * k * u + 2 * u) 0); [lia|].
    f_equal. f_equal; lia.
  - rewrite Hgen by (unfold Int64.max in *; lia).
    assert (Hd : 11 * u / (10 * u) = 1).
    { symmetry. apply (Z.div_unique_pos _ _ 1 u); lia. }
    rewrite Hd. cbv zeta.
    destruct (Z.ltb_spec (1 * (10 * u) + 2 * 0 * u + 2 * u) (11 * u)); [lia|].
    f_equal. f_equal; lia.
Qed.

(** *** The shards of one reference time, side by side *)

Lemma div_between y d q : 0 < d -> q * d <= y < (q + 1) * d -> y / d = q.
Proof.
  intros Hd Hy. symmetry. apply (Z.div_unique_pos y d q (y - q * d)); lia.
Qed.

Lemma configured_widths cu :
  configured cu -> 0 < windowWidth cu ->
  0 < shardWidth cu /\ numShards cu * shardWidth cu = windowWidth cu.
Proof.
  intros [Hn Hrem] HW. unfold shardWidth.
  pose proof (Z.quot_rem' (windowWidth cu) (numShards cu)) as Hqr.
  rewrite Hrem in Hqr.
  assert (0 <= Z.quot (windowWidth cu) (numShards cu)).
  { rewrite Z.quot_div_nonneg by lia. apply Z.div_pos; lia. }
  split; nia.
Qed.


(** The remainder of the saturated offset keeps the cycle start within one
    window width before a reference time that is not before the zero time. *)
Lemma zeroStart_bounds cu t :
  0 < windowWidth cu -> 0 <= t ->
  let zeroStart := t - Z.rem (time.Sub t time.zero) (windowWidth cu) in
  zeroStart <= t < zeroStart + windowWidth cu.
Proof.
  intros HW Ht zs. unfold zs.
  assert (0 <= time.Sub t time.zero).
  { destruct (Z.le_gt_cases t Int64.max).
    - rewrite Sub_zero_exact; lia.
    - rewrite Sub_zero_saturated by lia. unfold Int64.max. lia. }
  pose proof (Z.rem_bound_pos (time.Sub t time.zero) (windowWidth cu)
                ltac:(lia) ltac:(lia)).
  lia.
Qed.


(** *** One shard under several reference times *)

(** Where the left edge of the window lies in the cycle of the reference
    time, the earliest chunk that reaches into the window is the one
    returned. *)
Lemma getWindowForShard_earliest cu t k j :
  configured cu -> 0 < windowWidth cu -> 0 <= k < numShards cu ->
  0 <= lookbackPeriod cu ->
  0 <= t <= Int64.max ->
  (t - lookbackPeriod cu) / windowWidth cu = t / windowWidth cu ->
  overlaps (chunk cu k j) (observed cu t) ->
  snd (chunk cu k (j - 1)) < t - lookbackPeriod cu ->
  getWindowForShard cu t k = Some (chunk cu k j).
Proof.
  intros Hc HW Hk Hlb Ht Hcyc Hov Hprev.
  destruct (configured_widths cu Hc HW) as [Hsw Hnsw].
  rewrite getWindowForShard_cycle by assumption.
  assert (Hlbm : lookbackPeriod cu <= Int64.max).
  { pose proof (Z.div_le_mono (t - lookbackPeriod cu) t (windowWidth cu) HW).
    destruct (Z.le_gt_cases (lookbackPeriod cu) t) as [|Hgt]; [lia|].
    exfalso.
    assert ((t - lookbackPeriod cu) / windowWidth cu < 0)
      by (apply Z.div_lt_upper_bound; lia).
    assert (0 <= t / windowWidth cu) by (apply Z.div_pos; lia).
    lia. }
  rewrite neg_in_range by (unfold Int64.min, Int64.max in *; lia).
  set (J := t / windowWidth cu) in *.
  assert (HJ : J * windowWidth cu <= t - lookbackPeriod cu < (J + 1) * windowWidth cu).
  { rewrite <- Hcyc.
    pose proof (Z.mul_div_le (t - lookbackPeriod cu) (windowWidth cu) HW).
    pose proof (Z.mul_succ_div_gt (t - lookbackPeriod cu) (windowWidth cu) HW).
    lia. }
  unfold overlaps, observed, chunk in *. cbn [fst snd] in *. cbv zeta.
  set (W := windowWidth cu) in *. set (sw := shardWidth cu) in *.
  assert (j = J \/ j = J + 1) as [-> | ->] by nia.
  - destruct (Z.ltb_spec (J * W + (k + 1) * sw) (t + - lookbackPeriod cu)); [lia|].
    reflexivity.
  - destruct (Z.ltb_spec (J * W + (k + 1) * sw) (t + - lookbackPeriod cu)); [|lia].
    f_equal. f_equal; lia.
Qed.

(** Moving the reference time by the window width moves the interval by the
    same. *)
Lemma getWindowForShard_translate cu t k :
  configured cu -> 0 < windowWidth cu -> 0 <= k < numShards cu ->
  0 <= t -> t + windowWidth cu <= Int64.max ->
  getWindowForShard cu (t + windowWidth cu) k
  = (fun i => (fst i + windowWidth cu, snd i + windowWidth cu))
      <$> getWindowForShard cu t k.
Proof.
  intros Hc HW Hk Ht Hmax.
  rewrite !getWindowForShard_cycle by (try assumption; lia).
  assert (Hd : (t + windowWidth cu) / windowWidth cu = t / windowWidth cu + 1).
  { replace (t + windowWidth cu) with (t + 1 * windowWidth cu) by lia.
    apply Z.div_add. lia. }
  rewrite Hd.
  unfold chunk. cbn [fst snd]. cbv zeta.
  set (W := windowWidth cu) in *. set (sw := shardWidth cu) in *.
  set (L := Int64.neg (lookbackPeriod cu)).
  destruct (Z.ltb_spec (t / W * W + (k + 1) * sw) (t + L));
    destruct (Z.ltb_spec ((t / W + 1) * W + (k + 1) * sw) (t + W + L));
    try lia; cbn; f_equal; f_equal; lia.
Qed.

(** C4, as the code has it.  Take reference times from the zero time up to
    2^63-1 ns after it, with the left edge of the window in the same cycle
    of window width as the reference time (as it is for lookback 0).  If one
    chunk instance with ID k overlaps both windows and is the earliest to
    reach either, the instance before it ending before the left edge, then
    it is the interval returned at both times.  And moving the reference time
    by the window width moves the returned interval by the window width. *)
Theorem getWindowForShard_stable cu k j t1 t2 :
  configured cu -> 0 < windowWidth cu -> 0 <= k < numShards cu ->
  0 <= lookbackPeriod cu ->
  0 <= t1 <= Int64.max -> 0 <= t2 <= Int64.max ->
  (t1 - lookbackPeriod cu) / windowWidth cu = t1 / windowWidth cu ->
  (t2 - lookbackPeriod cu) / windowWidth cu = t2 / windowWidth cu ->
  overlaps (chunk cu k j) (observed cu t1) ->
  overlaps (chunk cu k j) (observed cu t2) ->
  snd (chunk cu k (j - 1)) < t1 - lookbackPeriod cu ->
  snd (chunk cu k (j - 1)) < t2 - lookbackPeriod cu ->
  getWindowForShard cu t1 k = Some (chunk cu k j)
  /\ getWindowForShard cu t2 k = getWindowForShard cu t1 k
  /\ (forall t, 0 <= t -> t + windowWidth cu <= Int64.max ->
       getWindowForShard cu (t + windowWidth cu) k
       = (fun i => (fst i + windowWidth cu, snd i + windowWidth cu))
           <$> getWindowForShard cu t k).
Proof.
  intros Hc HW Hk Hlb Ht1 Ht2 Hc1 Hc2 Ho1 Ho2 Hp1 Hp2.
  rewrite (getWindowForShard_earliest cu t1 k j) by assumption.
  rewrite (getWindowForShard_earliest cu t2 k j) by assumption.
  split; [reflexivity|]. split; [reflexivity|].
  intros t Ht Hmax. apply getWindowForShard_translate; assumption.
Qed.

End Windows.

(** ** The windows of the concrete scenarios *)

Lemma getWindowForShard_scenarios_witness :
  let cu := Scenario.windowsOnly 5 0 10 in
  (forall k, 0 <= k < 5 ->
     getWindowForShard cu time.zero k = Some (2 * k * 1, (2 * k + 2) * 1))
  /\ getWindowForShard cu (11 * 1) 0 = Some (10 * 1, 12 * 1)
  /\ (forall t k, 0 <= t <= Int64.max -> 0 <= k < 5 ->
       let s := t / (10 * 1) * (10 * 1) + 2 * k * 1 in
       getWindowForShard cu t k =
         if s + 2 * 1 <? t then Some (s + 10 * 1, s + 2 * 1 + 10 * 1)
         else Some (s, s + 2 * 1)).
Proof.
  apply (getWindowForShard_scenarios (Scenario.windowsOnly 5 0 10) 1).
  - lia.
  - vm_compute. discriminate.
  - reflexivity.
  - reflexivity.
  - reflexivity.
Defined.

(** The five shards at 13 units: shard 0, whose chunk [10,12) is behind 13,
    is moved to [20,22); the others stay. *)
Example getWindowForShard_at_13 :
  map (getWindowForShard (Scenario.windowsOnly 5 0 10) 13) [0; 1; 2; 3; 4]
  = [Some (20, 22); Some (12, 14); Some (14, 16); Some (16, 18); Some (18, 20)].
Proof. reflexivity. Qed.

(** C3. The interval returned need not overlap the observed window.  With
    lookback 0, lookforward 10 and 5 shards, at reference time 2 shard 0 is
    [0,2), which ends where the window [2,12) begins.  With lookback 4 and
    lookforward 6, at reference time 11 shard 4 is [18,20), past the window
    [7,17), though the chunk [8,10) with the same ID lies inside it. *)
Theorem getWindowForShard_misses_window :
  (let cu := Scenario.windowsOnly 5 0 10 in
   configured cu
   /\ getWindowForShard cu 2 0 = Some (0, 2)
   /\ observed cu 2 = (2, 12)
   /\ ~ overlaps (0, 2) (observed cu 2)
   /\ chunk cu 0 1 = (10, 12) /\ overlaps (chunk cu 0 1) (observed cu 2))
  /\
  (let cu := Scenario.windowsOnly 5 4 6 in
   configured cu
   /\ getWindowForShard cu 11 4 = Some (18, 20)
   /\ observed cu 11 = (7, 17)
   /\ ~ overlaps (18, 20) (observed cu 11)
   /\ chunk cu 4 0 = (8, 10) /\ overlaps (chunk cu 4 0) (observed cu 11)).
Proof.
  split; cbv zeta; unfold configured, overlaps;
    repeat split; try reflexivity; vm_compute; congruence.
Qed.

(** C9. A negative shard ID is not brought into [0, numShards): with
    lookback 0, lookforward 10 and 5 shards, at the zero time shard -1 is
    [-2,0), while shard 4, the residue of -1 modulo 5, is [8,10). *)
Theorem getWindowForShard_negative_shardID :
  let cu := Scenario.windowsOnly 5 0 10 in
  (-1) mod numShards cu = 4
  /\ getWindowForShard cu time.zero (-1) = Some (-2, 0)
  /\ getWindowForShard cu time.zero 4 = Some (8, 10)
  /\ getWindowForShard cu time.zero (-1)
     <> getWindowForShard cu time.zero ((-1) mod numShards cu).
Proof. cbv zeta. repeat split; try reflexivity. vm_compute. congruence. Qed.

(** C10. Once the reference time is more than 2^63-1 ns after the zero time
    the start is no longer on the grid anchored there.  With lookback 0,
    lookforward 10 and 5 shards, at the Unix epoch shard 0 has the width of
    one shard but starts 3 ns after a multiple of 10; one nanosecond later
    it starts 4 ns after one. *)
Theorem getWindowForShard_off_grid :
  let cu := Scenario.windowsOnly 5 0 10 in
  let epoch := time.unixToInternal * time.Second in
  configured cu
  /\ getWindowForShard cu epoch 0 = Some (epoch + 3, epoch + 5)
  /\ (epoch + 3 - time.zero) mod windowWidth cu = 3
  /\ (0 * shardWidth cu) mod windowWidth cu = 0
  /\ getWindowForShard cu (epoch + 1) 0 = Some (epoch + 4, epoch + 6).
Proof. cbv zeta. unfold configured. repeat split; vm_compute; congruence. Qed.

(** The design document's stability does not hold as it is worded: the chunk
    [10,12) with ID 0 overlaps the windows of the reference times 1 and 5,
    and shard 0 is [0,2) at 1 and [10,12) at 5. *)
Lemma getWindowForShard_not_stable :
  ~ (forall (X : X509) (cu : crlUpdater) k j t1 t2,
       configured cu -> 0 <= k < numShards cu ->
       overlaps (chunk cu k j) (observed cu t1) ->
       overlaps (chunk cu k j) (observed cu t2) ->
       getWindowForShard cu t1 k = getWindowForShard cu t2 k).
Proof.
  intros Hall.
  specialize (Hall _ (Scenario.windowsOnly 5 0 10) 0 1 1 5).
  assert (Heq : getWindowForShard (Scenario.windowsOnly 5 0 10) 1 0
                = getWindowForShard (Scenario.windowsOnly 5 0 10) 5 0).
  { apply Hall.
    - split; [vm_compute; congruence | reflexivity].
    - vm_compute. split; congruence.
    - vm_compute. reflexivity.
    - vm_compute. reflexivity. }
  vm_compute in Heq. congruence.
Qed.

Lemma getWindowForShard_stable_witness :
  let cu := Scenario.windowsOnly 5 0 10 in
  getWindowForShard cu 13 0 = Some (chunk cu 0 2)
  /\ getWindowForShard cu 19 0 = getWindowForShard cu 13 0
  /\ (forall t, 0 <= t -> t + windowWidth cu <= Int64.max ->
       getWindowForShard cu (t + windowWidth cu) 0
       = (fun i => (fst i + windowWidth cu, snd i + windowWidth cu))
           <$> getWindowForShard cu t 0).
Proof.
  apply (getWindowForShard_stable (Scenario.windowsOnly 5 0 10) 0 2 13 19).
  - split; [vm_compute; congruence | reflexivity].
  - reflexivity.
  - vm_compute. split; congruence.
  - vm_compute. congruence.
  - vm_compute. split; congruence.
  - vm_compute. split; congruence.
  - reflexivity.
  - reflexivity.
  - vm_compute. reflexivity.
  - vm_compute. reflexivity.
  - vm_compute. reflexivity.
  - vm_compute. reflexivity.
Defined.



(** ** Runs of [tickIssuer] *)

Section Runs.

Context `{X509}.

Implicit Types (cu : crlUpdater) (h : list Event).

Lemma readChunks_run k acc chunks fin h :
  readChunks k acc chunks fin h =
    (h ++ map (fun out => EvCARecv (Msg out)) chunks
       ++ [EvCARecv (match fin with None => EOF | Some e => RecvErr e end)],
     Returns (match fin with
              | None => inr (acc ++ concat chunks)
              | Some e => inl (ErrReadCRL k e)
              end)).
Proof.
  revert acc h. induction chunks as [|out chunks IH]; intros acc h.
  - destruct fin; cbn; rewrite ?app_nil_r; reflexivity.
  - cbn [readChunks]. unfold bind at 1, emit at 1. rewrite IH.
    cbn [map concat]. rewrite <- !app_assoc. cbn [app].
    destruct fin; [reflexivity|]. rewrite app_assoc. reflexivity.
Qed.

Lemma relayEntries_ok caStream k sent entries fin h :
  accepts caStream sent (map GenerateCRLRequest_Entry entries) ->
  relayEntries caStream k sent entries fin h =
    (h ++ relayEvents entries
       ++ [EvSARecv (match fin with None => EOF | Some e => RecvErr e end)],
     Returns (match fin with
              | None => inr (sent ++ map GenerateCRLRequest_Entry entries)
              | Some e => inl (ErrRecvEntry k e)
              end)).
Proof.
  revert sent h. induction entries as [|entry entries IH]; intros sent h Hacc.
  - destruct fin; cbn; rewrite ?app_nil_r; reflexivity.
  - cbn [map accepts] in Hacc. destruct Hacc as [Hsend Hacc].
    cbn [relayEntries]. unfold bind at 1 2, emit at 1 2.
    rewrite Hsend. rewrite (IH _ _ Hacc).
    cbn [map relayEvents flat_map]. rewrite <- !app_assoc. cbn [app].
    destruct fin; [reflexivity|]. reflexivity.
Qed.

Lemma relayEntries_inr caStream k sent entries fin h h' sent' :
  relayEntries caStream k sent entries fin h = (h', Returns (inr sent')) ->
  accepts caStream sent (map GenerateCRLRequest_Entry entries) /\ fin = None.
Proof.
  revert sent h. induction entries as [|entry entries IH]; intros sent h Hrun.
  - destruct fin; cbn in Hrun; [discriminate|]. split; [exact I | reflexivity].
  - cbn [relayEntries] in Hrun. unfold bind at 1 2, emit at 1 2 in Hrun.
    destruct (Send caStream sent (GenerateCRLRequest_Entry entry)) eqn:Hsend;
      [discriminate|].
    apply IH in Hrun as [Hacc Hfin]. cbn [map accepts]. auto.
Qed.

(** The relay fails on a read from the data source or on a send to the
    generation service. *)
Lemma relayEntries_inl caStream k sent entries fin h h' err :
  relayEntries caStream k sent entries fin h = (h', Returns (inl err)) ->
  exists e, err = ErrRecvEntry k e \/ err = ErrSendEntry k e.
Proof.
  revert sent h. induction entries as [|entry entries IH]; intros sent h Hrun.
  - destruct fin; cbn in Hrun; [|discriminate].
    injection Hrun as _ <-. eauto.
  - cbn [relayEntries] in Hrun. unfold bind at 1 2, emit at 1 2 in Hrun.
    destruct (Send caStream sent (GenerateCRLRequest_Entry entry)) eqn:Hsend.
    + injection Hrun as _ <-. eauto.
    + eapply IH, Hrun.
Qed.

Lemma relayEntries_refused caStream k sent pre entry post fin h err :
  accepts caStream sent (map GenerateCRLRequest_Entry pre) ->
  Send caStream (sent ++ map GenerateCRLRequest_Entry pre)
       (GenerateCRLRequest_Entry entry) = Some err ->
  relayEntries caStream k sent (pre ++ entry :: post) fin h =
    (h ++ relayEvents pre
       ++ [EvSARecv (Msg entry); EvCASend (GenerateCRLRequest_Entry entry)],
     Returns (inl (ErrSendEntry k err))).
Proof.
  revert sent h. induction pre as [|e pre IH]; intros sent h Hacc Hsend.
  - cbn [map app] in *. rewrite app_nil_r in Hsend.
    cbn [relayEntries]. unfold bind at 1 2, emit at 1 2. rewrite Hsend.
    unfold ret. rewrite <- app_assoc. reflexivity.
  - cbn [map accepts] in Hacc. destruct Hacc as [Hone Hacc].
    cbn [app relayEntries]. unfold bind at 1 2, emit at 1 2. rewrite Hone.
    rewrite IH; [|exact Hacc|].
    + rewrite <- !app_assoc. reflexivity.
    + rewrite <- app_assoc. exact Hsend.
Qed.

Lemma sentMessages_relayEvents entries :
  sentMessages (relayEvents entries) = map GenerateCRLRequest_Entry entries.
Proof.
  induction entries as [|entry entries IH]; [reflexivity|].
  cbn. unfold sentMessages, relayEvents in IH. rewrite IH. reflexivity.
Qed.

Lemma sentMessages_app evs1 evs2 :
  sentMessages (evs1 ++ evs2) = sentMessages evs1 ++ sentMessages evs2.
Proof. apply omap_app. Qed.

Lemma sentMessages_recvs (chunks : list (list Byte.byte)) :
  sentMessages (map (fun out => EvCARecv (Msg out)) chunks) = [].
Proof. induction chunks; [reflexivity | assumption]. Qed.

Lemma sentMessages_shardEvents req atTime id k entries chunks cn n :
  sentMessages (shardEvents req atTime id k entries chunks cn n)
  = metadataFor atTime id :: map GenerateCRLRequest_Entry entries.
Proof.
  unfold shardEvents, checkedEvents. rewrite !sentMessages_app.
  rewrite sentMessages_relayEvents, sentMessages_recvs. cbn.
  rewrite !app_nil_r. reflexivity.
Qed.

(** A turn that gets as far as the signature check: what it does, by the
    answer of the check. *)
Lemma tickIssuer_shard_checked cu atTime id k h req saStream caStream crl issuer :
  requestFor cu atTime id k = Some req ->
  GetRevokedCerts (sa cu) h req = inr saStream ->
  fin saStream = None ->
  GenerateCRL (ca cu) (h ++ [EvGetRevokedCerts req]) = inr caStream ->
  accepts caStream []
    (metadataFor atTime id :: map GenerateCRLRequest_Entry (items saStream)) ->
  let out := Output caStream
    (metadataFor atTime id :: map GenerateCRLRequest_Entry (items saStream)) in
  fin out = None ->
  ParseDERCRL (concat (items out)) = inr crl ->
  issuers cu !! id = Some issuer ->
  tickIssuer_shard cu atTime id k h =
    match CheckCRLSignature issuer crl with
    | None =>
        (h ++ shardEvents req atTime id k (items saStream) (items out)
                (Subject_CommonName issuer) (RevokedCertificates crl),
         Returns None)
    | Some err =>
        (h ++ checkedEvents req atTime id (items saStream) (items out),
         Returns (Some (ErrCheckSignature k err)))
    end.
Proof.
  intros Hreq Hsa Hfin Hca Hacc out Hout Hparse Hiss.
  unfold requestFor in Hreq. unfold tickIssuer_shard.
  destruct (getWindowForShard cu atTime k) as [[a b]|]; [|discriminate].
  cbn in Hreq. injection Hreq as <-.
  unfold bind at 1, call at 1. rewrite Hsa.
  unfold bind at 1, call at 1. rewrite Hca.
  unfold bind at 1, emit at 1.
  cbn [accepts] in Hacc. destruct Hacc as [Hmeta Hacc]. cbn [app] in Hacc.
  fold (metadataFor atTime id). rewrite Hmeta.
  unfold bind at 1. rewrite (relayEntries_ok _ _ _ _ _ _ Hacc). rewrite Hfin.
  cbn [app]. fold out.
  unfold bind at 1. rewrite readChunks_run. rewrite Hout. cbn [app].
  unfold bind at 1, emit at 1. rewrite Hparse. rewrite Hiss.
  unfold bind at 1, emit at 1.
  destruct (CheckCRLSignature issuer crl) as [err|].
  - unfold ret. f_equal. unfold checkedEvents.
    rewrite <- !app_assoc. cbn [app]. reflexivity.
  - unfold bind at 1, emit at 1, ret.
    f_equal. unfold shardEvents, checkedEvents.
    rewrite <- !app_assoc. cbn [app]. reflexivity.
Qed.

(** A turn that ends without an error went through every stage. *)
Lemma tickIssuer_shard_inv cu atTime id k h h' :
  tickIssuer_shard cu atTime id k h = (h', Returns None) ->
  exists req saStream caStream crl issuer,
    requestFor cu atTime id k = Some req
    /\ GetRevokedCerts (sa cu) h req = inr saStream
    /\ fin saStream = None
    /\ GenerateCRL (ca cu) (h ++ [EvGetRevokedCerts req]) = inr caStream
    /\ accepts caStream []
         (metadataFor atTime id :: map GenerateCRLRequest_Entry (items saStream))
    /\ fin (Output caStream
              (metadataFor atTime id
               :: map GenerateCRLRequest_Entry (items saStream))) = None
    /\ ParseDERCRL (concat (items (Output caStream
              (metadataFor atTime id
               :: map GenerateCRLRequest_Entry (items saStream))))) = inr crl
    /\ issuers cu !! id = Some issuer
    /\ CheckCRLSignature issuer crl = None.
Proof.
  unfold tickIssuer_shard, requestFor. intros Hrun.
  destruct (getWindowForShard cu atTime k) as [[a b]|]; [|discriminate].
  cbn [mbind option_bind fst snd].
  unfold bind at 1, call at 1 in Hrun.
  destruct (GetRevokedCerts _ _ _) as [?|saStream] eqn:Hsa; [discriminate|].
  unfold bind at 1, call at 1 in Hrun.
  destruct (GenerateCRL _ _) as [?|caStream] eqn:Hca; [discriminate|].
  unfold bind at 1, emit at 1 in Hrun.
  fold (metadataFor atTime id) in Hrun.
  destruct (Send caStream [] (metadataFor atTime id)) eqn:Hmeta; [discriminate|].
  unfold bind at 1 in Hrun.
  destruct (relayEntries _ _ _ _ _ _) as [h1 [[?|sent]|]] eqn:Hrelay;
    [discriminate| |discriminate].
  pose proof (relayEntries_inr _ _ _ _ _ _ _ _ Hrelay) as [Hacc Hfin].
  rewrite (relayEntries_ok _ _ _ _ _ _ Hacc), Hfin in Hrelay.
  injection Hrelay as <- <-. cbn [app] in Hrun.
  unfold bind at 1 in Hrun. rewrite readChunks_run in Hrun.
  destruct (fin (Output caStream _)) eqn:Hout; [discriminate|].
  cbn [app] in Hrun. unfold bind at 1, emit at 1 in Hrun.
  destruct (ParseDERCRL _) as [?|crl] eqn:Hparse; [discriminate|].
  destruct (issuers cu !! id) as [issuer|] eqn:Hiss; [|discriminate].
  unfold bind at 1, emit at 1 in Hrun.
  destruct (CheckCRLSignature issuer crl) eqn:Hsig; [discriminate|].
  exists {| IssuerNameID := id;
            ExpiresAfter := time.UnixNano a;
            ExpiresBefore := time.UnixNano b;
            RevokedBefore := time.UnixNano atTime |},
    saStream, caStream, crl, issuer.
  repeat split; assumption.
Qed.

(** A turn that ends with an error failed at one of the stages: opening or
    reading the stream of the data source, opening the stream of the
    generation service or sending on it, reading its output, parsing the
    list, checking its signature; the error names the shard. *)
Lemma tickIssuer_shard_error cu atTime id k h h' err :
  tickIssuer_shard cu atTime id k h = (h', Returns (Some err)) ->
  exists e, In err [ErrConnectSA k e; ErrRecvEntry k e;
                    ErrConnectCA k e; ErrSendMetadata k e; ErrSendEntry k e;
                    ErrReadCRL k e; ErrParseCRL k e; ErrCheckSignature k e].
Proof.
  unfold tickIssuer_shard. intros Hrun.
  destruct (getWindowForShard cu atTime k) as [[a b]|]; [|discriminate].
  unfold bind at 1, call at 1 in Hrun.
  destruct (GetRevokedCerts _ _ _) as [e|saStream].
  { injection Hrun as _ <-. exists e. cbn. tauto. }
  unfold bind at 1, call at 1 in Hrun.
  destruct (GenerateCRL _ _) as [e|caStream].
  { injection Hrun as _ <-. exists e. cbn. tauto. }
  unfold bind at 1, emit at 1 in Hrun.
  destruct (Send caStream [] _) as [e|].
  { injection Hrun as _ <-. exists e. cbn. tauto. }
  unfold bind at 1 in Hrun.
  destruct (relayEntries _ _ _ _ _ _) as [h1 [[err'|sent]|]] eqn:Hrelay;
    [| |discriminate].
  { injection Hrun as _ <-.
    destruct (relayEntries_inl _ _ _ _ _ _ _ _ Hrelay) as [e [-> | ->]];
      exists e; cbn; tauto. }
  unfold bind at 1 in Hrun. rewrite readChunks_run in Hrun.
  destruct (fin (Output caStream _)) as [e|].
  { injection Hrun as _ <-. exists e. cbn. tauto. }
  unfold bind at 1, emit at 1 in Hrun.
  destruct (ParseDERCRL _) as [e|crl].
  { injection Hrun as _ <-. exists e. cbn. tauto. }
  destruct (issuers cu !! id) as [issuer|]; [|discriminate].
  unfold bind at 1, emit at 1 in Hrun.
  destruct (CheckCRLSignature issuer crl) as [e|]; [|discriminate].
  injection Hrun as _ <-. exists e. cbn. tauto.
Qed.

(** C8. A turn ends without an error exactly when every stage succeeds, and
    then: the request to the data source carries the issuer, the bounds of
    the window of the shard and the reference time; the generation service
    is sent one metadata message, with the issuer and the reference time,
    and after it one entry message for each entry read, in the order read;
    and the bytes parsed are the chunks read, appended in the order read. *)
Theorem tickIssuer_shard_protocol cu atTime id k h h' :
  (tickIssuer_shard cu atTime id k h = (h', Returns None) <->
   exists expiresAfter expiresBefore saStream caStream crl issuer,
     let req := {| IssuerNameID := id;
                   ExpiresAfter := time.UnixNano expiresAfter;
                   ExpiresBefore := time.UnixNano expiresBefore;
                   RevokedBefore := time.UnixNano atTime |} in
     let sent := metadataFor atTime id
                 :: map GenerateCRLRequest_Entry (items saStream) in
     let out := Output caStream sent in
     getWindowForShard cu atTime k = Some (expiresAfter, expiresBefore)
     /\ GetRevokedCerts (sa cu) h req = inr saStream
     /\ fin saStream = None
     /\ GenerateCRL (ca cu) (h ++ [EvGetRevokedCerts req]) = inr caStream
     /\ accepts caStream [] sent
     /\ fin out = None
     /\ ParseDERCRL (concat (items out)) = inr crl
     /\ issuers cu !! id = Some issuer
     /\ CheckCRLSignature issuer crl = None
     /\ h' = h ++ shardEvents req atTime id k (items saStream) (items out)
                    (Subject_CommonName issuer) (RevokedCertificates crl))
  /\ (forall req entries chunks cn n,
        sentMessages (shardEvents req atTime id k entries chunks cn n)
        = metadataFor atTime id :: map GenerateCRLRequest_Entry entries).
Proof.
  split; [|intros; apply sentMessages_shardEvents].
  split.
  - intros Hrun.
    destruct (tickIssuer_shard_inv _ _ _ _ _ _ Hrun)
      as (req & saStream & caStream & crl & issuer & Hreq & Hsa & Hfin & Hca
          & Hacc & Hout & Hparse & Hiss & Hsig).
    pose proof (tickIssuer_shard_checked _ _ _ _ _ _ _ _ _ _
                  Hreq Hsa Hfin Hca Hacc Hout Hparse Hiss) as Hok.
    rewrite Hsig, Hrun in Hok. injection Hok as ->.
    unfold requestFor in Hreq.
    destruct (getWindowForShard cu atTime k) as [[a b]|]; [|discriminate].
    cbn in Hreq. injection Hreq as <-.
    exists a, b, saStream, caStream, crl, issuer. cbv zeta.
    repeat split; try assumption; apply Hacc.
  - intros (a & b & saStream & caStream & crl & issuer & Hw & Hsa & Hfin & Hca
            & Hacc & Hout & Hparse & Hiss & Hsig & ->).
    erewrite tickIssuer_shard_checked; try eassumption.
    + rewrite Hsig. reflexivity.
    + unfold requestFor. rewrite Hw. reflexivity.
Qed.

(** The turns before a failing one, and those after it. *)
Lemma tickIssuer_shards_fail cu atTime id (k n : nat) s h h1 h2 err :
  tickIssuer_shards cu atTime id s k h = (h1, Returns None) ->
  tickIssuer_shard cu atTime id (s + Z.of_nat k) h1 = (h2, Returns (Some err)) ->
  tickIssuer_shards cu atTime id s (k + S n) h = (h2, Returns (Some err)).
Proof.
  revert s h. induction k as [|k IH]; intros s h Hbefore Hfail.
  - cbn in Hbefore. injection Hbefore as ->.
    rewrite Z.add_0_r in Hfail.
    cbn [Nat.add tickIssuer_shards]. unfold bind at 1. rewrite Hfail. reflexivity.
  - cbn [Nat.add tickIssuer_shards] in *. unfold bind at 1 in Hbefore.
    unfold bind at 1.
    destruct (tickIssuer_shard cu atTime id s h) as [h' [[e|]|]];
      [discriminate| |discriminate].
    apply IH; [assumption|].
    replace (s + 1 + Z.of_nat k) with (s + Z.of_nat (S k)) by lia. assumption.
Qed.

(** What [tickIssuer] adds to its loop: the clock is read before it, and
    after it the elapsed time is observed under the label of the result. *)
Lemma tickIssuer_run cu atTime id issuer h h' r :
  issuers cu !! id = Some issuer ->
  let start := Now (clk cu) h in
  tickIssuer_shards cu atTime id 0 (Z.to_nat (numShards cu)) (h ++ [EvNow start])
    = (h', Returns r) ->
  let now := Now (clk cu) h' in
  tickIssuer cu atTime id h =
    (h' ++ [EvNow now;
            EvObserve (Subject_CommonName issuer) (resultLabel (Returns r))
                      (time.Sub now start)],
     Returns r).
Proof.
  intros Hiss start Hrun now.
  unfold tickIssuer. unfold bind at 1, clkNow at 1, defer.
  fold start. rewrite Hrun, Hiss.
  unfold bind, clkNow, emit. fold now.
  rewrite <- app_assoc. reflexivity.
Qed.

(** A stage that fails makes the turn return the error of the stage, with
    the run as it is at the failure. *)
Lemma stageFails_returns cu atTime id k h h' err :
  stageFails cu atTime id k h h' err ->
  tickIssuer_shard cu atTime id k h = (h', Returns (Some err)).
Proof.
  intros Hfail.
  destruct Hfail as
    [ req e Hreq Hsa
    | req saStream e Hreq Hsa Hca
    | req saStream caStream e Hreq Hsa Hca Hmeta
    | req saStream caStream e Hreq Hsa Hca Hacc Hfin
    | req saStream caStream pre entry post e Hreq Hsa Hca Hitems Hacc Hsend
    | req saStream caStream e Hreq Hsa Hfin Hca Hacc out Hout
    | req saStream caStream e Hreq Hsa Hfin Hca Hacc out Hout Hparse
    | req saStream caStream crl issuer e Hreq Hsa Hfin Hca Hacc out Hout
        Hparse Hiss Hsig ];
    unfold requestFor in Hreq; unfold tickIssuer_shard;
    (destruct (getWindowForShard cu atTime k) as [[a b]|]; [|discriminate]);
    cbn in Hreq; injection Hreq as <-;
    fold (metadataFor atTime id);
    unfold bind at 1, call at 1; rewrite Hsa.
  - reflexivity.
  - unfold bind at 1, call at 1. rewrite Hca. unfold ret.
    rewrite <- app_assoc. reflexivity.
  - unfold bind at 1, call at 1. rewrite Hca.
    unfold bind at 1, emit at 1. rewrite Hmeta. unfold ret.
    rewrite <- !app_assoc. reflexivity.
  - unfold bind at 1, call at 1. rewrite Hca.
    unfold bind at 1, emit at 1.
    cbn [accepts] in Hacc. destruct Hacc as [Hmeta Hacc]. cbn [app] in Hacc.
    rewrite Hmeta.
    unfold bind at 1. rewrite (relayEntries_ok _ _ _ _ _ _ Hacc). rewrite Hfin.
    unfold ret. rewrite <- !app_assoc. reflexivity.
  - unfold bind at 1, call at 1. rewrite Hca.
    unfold bind at 1, emit at 1.
    cbn [accepts] in Hacc. destruct Hacc as [Hmeta Hacc]. cbn [app] in Hacc.
    rewrite Hmeta.
    unfold bind at 1. rewrite Hitems.
    rewrite (relayEntries_refused _ _ _ _ _ _ _ _ _ Hacc Hsend).
    unfold ret. rewrite <- !app_assoc. reflexivity.
  - unfold bind at 1, call at 1. rewrite Hca.
    unfold bind at 1, emit at 1.
    cbn [accepts] in Hacc. destruct Hacc as [Hmeta Hacc]. cbn [app] in Hacc.
    rewrite Hmeta.
    unfold bind at 1. rewrite (relayEntries_ok _ _ _ _ _ _ Hacc). rewrite Hfin.
    cbn [app]. fold out.
    unfold bind at 1. rewrite readChunks_run. rewrite Hout.
    unfold ret. rewrite <- !app_assoc. reflexivity.
  - unfold bind at 1, call at 1. rewrite Hca.
    unfold bind at 1, emit at 1.
    cbn [accepts] in Hacc. destruct Hacc as [Hmeta Hacc]. cbn [app] in Hacc.
    rewrite Hmeta.
    unfold bind at 1. rewrite (relayEntries_ok _ _ _ _ _ _ Hacc). rewrite Hfin.
    cbn [app]. fold out.
    unfold bind at 1. rewrite readChunks_run. rewrite Hout. cbn [app].
    unfold bind at 1, emit at 1. rewrite Hparse.
    unfold ret. rewrite <- !app_assoc. cbn [app]. reflexivity.
  - unfold bind at 1, call at 1. rewrite Hca.
    unfold bind at 1, emit at 1.
    cbn [accepts] in Hacc. destruct Hacc as [Hmeta Hacc]. cbn [app] in Hacc.
    rewrite Hmeta.
    unfold bind at 1. rewrite (relayEntries_ok _ _ _ _ _ _ Hacc). rewrite Hfin.
    cbn [app]. fold out.
    unfold bind at 1. rewrite readChunks_run. rewrite Hout. cbn [app].
    unfold bind at 1, emit at 1. rewrite Hparse, Hiss.
    unfold bind at 1, emit at 1. rewrite Hsig.
    unfold ret. f_equal. unfold checkedEvents.
    rewrite <- !app_assoc. cbn [app]. reflexivity.
Qed.

(** C1, as the code has it.  When a stage of shard k of an issuer fails,
    whichever of the eight stages it is, the turn returns the error of that
    stage and [tickIssuer] returns it at once: what follows the events of the
    failed turn is the observation of the issuer under "failed", and the n
    shards after k are not attempted.  [tick] logs the error and goes on
    with the issuers that remain. *)
Theorem tick_failure_isolation cu id iss issuer rest result
    (k n : nat) h0 h1 h2 err :
  issuers cu !! id = Some issuer ->
  Z.to_nat (numShards cu) = (k + S n)%nat ->
  let atTime := Now (clk cu) h0 in
  let start := Now (clk cu) (h0 ++ [EvNow atTime]) in
  tickIssuer_shards cu atTime id 0 k ((h0 ++ [EvNow atTime]) ++ [EvNow start])
    = (h1, Returns None) ->
  stageFails cu atTime id (Z.of_nat k) h1 h2 err ->
  let now := Now (clk cu) h2 in
  let failed := [EvNow now;
                 EvObserve (Subject_CommonName issuer) "failed"
                           (time.Sub now start)] in
  tickIssuer_shard cu atTime id (Z.of_nat k) h1 = (h2, Returns (Some err))
  /\ (exists e, In err [ErrConnectSA (Z.of_nat k) e; ErrRecvEntry (Z.of_nat k) e;
                     ErrConnectCA (Z.of_nat k) e; ErrSendMetadata (Z.of_nat k) e;
                     ErrSendEntry (Z.of_nat k) e; ErrReadCRL (Z.of_nat k) e;
                     ErrParseCRL (Z.of_nat k) e;
                     ErrCheckSignature (Z.of_nat k) e])
  /\ tickIssuer cu atTime id (h0 ++ [EvNow atTime])
     = (h2 ++ failed, Returns (Some err))
  /\ tick_issuers cu ((id, iss) :: rest) result h0
     = tick_issuers cu rest "failed"
         ((h2 ++ failed) ++ [EvAuditErr (Subject_CommonName iss) atTime err]).
Proof.
  intros Hiss Hn atTime start Hbefore Hstage now failed.
  pose proof (stageFails_returns _ _ _ _ _ _ _ Hstage) as Hfail.
  assert (Hrun : tickIssuer cu atTime id (h0 ++ [EvNow atTime])
                 = (h2 ++ failed, Returns (Some err))).
  { apply (tickIssuer_run cu atTime id issuer _ h2 (Some err) Hiss).
    rewrite Hn. apply (tickIssuer_shards_fail _ _ _ _ _ _ _ h1); assumption. }
  split; [exact Hfail|].
  split; [eapply tickIssuer_shard_error; eassumption|].
  split; [exact Hrun|].
  cbn [tick_issuers]. unfold bind at 1, clkNow at 1. fold atTime.
  unfold bind at 1. rewrite Hrun. reflexivity.
Qed.

Lemma no_request_in_checkedEvents req atTime id entries chunks req' :
  In (EvGetRevokedCerts req') (checkedEvents req atTime id entries chunks) ->
  req' = req.
Proof.
  unfold checkedEvents, relayEvents. rewrite !in_app_iff.
  rewrite in_flat_map, in_map_iff. cbn.
  intros [Hin|[Hin|[Hin|[Hin|[Hin|Hin]]]]].
  - destruct Hin as [Heq|[Heq|[Heq|[]]]]; congruence.
  - destruct Hin as (x & _ & [Heq|[Heq|[]]]); discriminate.
  - destruct Hin as [Heq|[]]; discriminate.
  - destruct Hin as (x & Heq & _); discriminate.
  - destruct Hin as [Heq|[]]; discriminate.
  - destruct Hin as [Heq|[Heq|[]]]; discriminate.
Qed.

Lemma no_report_in_checkedEvents req atTime id entries chunks cn k n :
  ~ In (EvDebug cn k n) (checkedEvents req atTime id entries chunks).
Proof.
  unfold checkedEvents, relayEvents. rewrite !in_app_iff.
  rewrite in_flat_map, in_map_iff. cbn.
  intros [Hin|[Hin|[Hin|[Hin|[Hin|Hin]]]]].
  - destruct Hin as [Heq|[Heq|[Heq|[]]]]; discriminate.
  - destruct Hin as (x & _ & [Heq|[Heq|[]]]); discriminate.
  - destruct Hin as [Heq|[]]; discriminate.
  - destruct Hin as (x & Heq & _); discriminate.
  - destruct Hin as [Heq|[]]; discriminate.
  - destruct Hin as [Heq|[Heq|[]]]; discriminate.
Qed.

(** C2, as the code has it.  One issuer with 2 shards; the data source has
    three entries for shard 0, the generation service answers with bytes that
    parse, and the key of the issuer does not verify them.  Then [tickIssuer]
    fails shard 0 on the signature check and returns: its events are those
    of shard 0 up to the check and the observation of the issuer under
    "failed"; the only request to the data source is that of shard 0, and no
    shard is reported complete.  Shard 1 is not attempted. *)
Theorem tickIssuer_end_to_end cu atTime id h req saStream caStream crl issuer
    e1 e2 e3 err :
  numShards cu = 2 ->
  issuers cu !! id = Some issuer ->
  let start := Now (clk cu) h in
  requestFor cu atTime id 0 = Some req ->
  GetRevokedCerts (sa cu) (h ++ [EvNow start]) req = inr saStream ->
  items saStream = [e1; e2; e3] ->
  fin saStream = None ->
  GenerateCRL (ca cu) ((h ++ [EvNow start]) ++ [EvGetRevokedCerts req])
    = inr caStream ->
  accepts caStream []
    (metadataFor atTime id :: map GenerateCRLRequest_Entry (items saStream)) ->
  let out := Output caStream
    (metadataFor atTime id :: map GenerateCRLRequest_Entry (items saStream)) in
  fin out = None ->
  ParseDERCRL (concat (items out)) = inr crl ->
  CheckCRLSignature issuer crl = Some err ->
  let shard0 := checkedEvents req atTime id (items saStream) (items out) in
  let now := Now (clk cu) ((h ++ [EvNow start]) ++ shard0) in
  let observed := EvObserve (Subject_CommonName issuer) "failed"
                            (time.Sub now start) in
  let run := [EvNow start] ++ shard0 ++ [EvNow now; observed] in
  tickIssuer cu atTime id h = (h ++ run, Returns (Some (ErrCheckSignature 0 err)))
  /\ (forall req', attempted run req' -> req' = req)
  /\ (forall cn k, ~ reportedComplete run cn k).
Proof.
  intros Hn Hiss start Hreq Hsa Hitems Hfin Hca Hacc out Hout Hparse Hsig
         shard0 now observed run.
  assert (Hshard : tickIssuer_shard cu atTime id 0 (h ++ [EvNow start])
                   = ((h ++ [EvNow start]) ++ shard0,
                      Returns (Some (ErrCheckSignature 0 err)))).
  { erewrite tickIssuer_shard_checked; try eassumption.
    rewrite Hsig. reflexivity. }
  split; [|split].
  - pose proof (tickIssuer_run cu atTime id issuer h
                  ((h ++ [EvNow start]) ++ shard0)
                  (Some (ErrCheckSignature 0 err)) Hiss) as Hrun.
    cbv zeta in Hrun. rewrite Hrun.
    + unfold run. fold start now. unfold observed.
      rewrite <- !app_assoc. reflexivity.
    + rewrite Hn. change (Z.to_nat 2) with (0 + 2)%nat.
      eapply tickIssuer_shards_fail; [reflexivity|]. exact Hshard.
  - assert (Hreqs : forall req', In (EvGetRevokedCerts req') shard0 -> req' = req)
      by (intros req'; apply no_request_in_checkedEvents).
    clearbody shard0. unfold attempted, run, observed. intros req'.
    rewrite !in_app_iff. cbn [In].
    intros [[Heq|[]]|[Hin|[Heq|[Heq|[]]]]]; try discriminate.
    apply Hreqs, Hin.
  - assert (Hreps : forall cn k n, ~ In (EvDebug cn k n) shard0)
      by (intros cn k n; apply no_report_in_checkedEvents).
    clearbody shard0. unfold reportedComplete, run, observed.
    intros cn k [n Hin]. rewrite !in_app_iff in Hin. cbn [In] in Hin.
    destruct Hin as [[Heq|[]]|[Hin|[Heq|[Heq|[]]]]]; try discriminate.
    eapply Hreps, Hin.
Qed.

End Runs.

(** ** The runs of the concrete scenarios *)

Lemma NewUpdater_validates_witness :
  exists cu,
    NewUpdater [Scenario.issuerA; Scenario.toyCertificate 1 "Issuer A2" Byte.x02;
                Scenario.issuerB]
               2 0 10 time.Hour Scenario.shardedSA Scenario.echoCA
               Scenario.freshRegistry (Scenario.fixedClock 0)
      = Returns (inr cu)
    /\ numShards cu = 2
    /\ lookbackPeriod cu = 0
    /\ lookforwardPeriod cu = 10
    /\ updatePeriod cu = time.Hour
    /\ sa cu = Scenario.shardedSA /\ ca cu = Scenario.echoCA
    /\ clk cu = Scenario.fixedClock 0
    /\ forall id, issuers cu !! id
         = last (filter (fun c => NameID c = id)
                   [Scenario.issuerA;
                    Scenario.toyCertificate 1 "Issuer A2" Byte.x02;
                    Scenario.issuerB]).
Proof.
  apply (proj1 (proj2 (proj2 (proj2 (proj2 (NewUpdater_validates
                  [Scenario.issuerA;
                   Scenario.toyCertificate 1 "Issuer A2" Byte.x02;
                   Scenario.issuerB]
                  2 0 10 time.Hour Scenario.shardedSA Scenario.echoCA
                  Scenario.freshRegistry (Scenario.fixedClock 0))))))).
  - intros [Hn|[Hp|Hw]].
    + lia.
    + unfold time.Hour, time.Second in Hp. lia.
    + apply Hw. reflexivity.
  - split; reflexivity.
Defined.

(** C7 does not hold as it is worded.  Two shards, a window of 10 ns and an
    update period of one hour pass the three checks, and with a registry
    that holds a collector named crl_updater_ticks already the constructor
    panics: it returns neither an error nor an updater. *)
Lemma NewUpdater_registry_refuses :
  let r := NewUpdater [Scenario.issuerA] 2 0 10 time.Hour
             Scenario.shardedSA Scenario.echoCA
             (Scenario.registryWith ["crl_updater_ticks"%string])
             (Scenario.fixedClock 0) in
  ~ (2 < 1 \/ 7 * 24 * time.Hour <= time.Hour
     \/ Z.rem (time.Nanoseconds (Int64.add 0 10)) 2 <> 0)
  /\ r = Panics
  /\ ~ (exists cu, r = Returns (inr cu)).
Proof.
  cbv zeta. split; [|split].
  - intros [Hn|[Hp|Hw]].
    + lia.
    + unfold time.Hour, time.Second in Hp. lia.
    + apply Hw. reflexivity.
  - reflexivity.
  - intros [cu Hcu]. vm_compute in Hcu. discriminate.
Qed.

(** Shard 0 of the end-to-end scenario, for an issuer whose key signed it:
    three entries are relayed and two chunks are put together. *)
Lemma tickIssuer_shard_protocol_witness :
  let cu := Scenario.matching in
  let atTime := Scenario.epoch in
  let req := {| IssuerNameID := 1; ExpiresAfter := 3;
                ExpiresBefore := 8; RevokedBefore := 0 |} in
  let e1 := Scenario.entry "0a" in
  let e2 := Scenario.entry "0b" in
  let e3 := Scenario.entry "0c" in
  tickIssuer_shard cu atTime 1 0 []
  = ([EvGetRevokedCerts req; EvGenerateCRL;
      EvCASend (metadataFor atTime 1);
      EvSARecv (Msg e1); EvCASend (GenerateCRLRequest_Entry e1);
      EvSARecv (Msg e2); EvCASend (GenerateCRLRequest_Entry e2);
      EvSARecv (Msg e3); EvCASend (GenerateCRLRequest_Entry e3);
      EvSARecv EOF;
      EvCARecv (Msg [Byte.x02]); EvCARecv (Msg [Byte.x03]); EvCARecv EOF;
      EvParseDERCRL [Byte.x02; Byte.x03]; EvCheckCRLSignature 1;
      EvDebug "Issuer A" 0 3],
     Returns None)
  /\ exists expiresAfter expiresBefore saStream caStream crl issuer,
     let req := {| IssuerNameID := 1;
                   ExpiresAfter := time.UnixNano expiresAfter;
                   ExpiresBefore := time.UnixNano expiresBefore;
                   RevokedBefore := time.UnixNano atTime |} in
     let sent := metadataFor atTime 1
                 :: map GenerateCRLRequest_Entry (items saStream) in
     let out := Output caStream sent in
     getWindowForShard cu atTime 0 = Some (expiresAfter, expiresBefore)
     /\ GetRevokedCerts (sa cu) [] req = inr saStream
     /\ fin saStream = None
     /\ GenerateCRL (ca cu) ([] ++ [EvGetRevokedCerts req]) = inr caStream
     /\ accepts caStream [] sent
     /\ fin out = None
     /\ ParseDERCRL (concat (items out)) = inr crl
     /\ issuers cu !! 1 = Some issuer
     /\ CheckCRLSignature issuer crl = None
     /\ fst (tickIssuer_shard cu atTime 1 0 [])
        = [] ++ shardEvents req atTime 1 0 (items saStream) (items out)
                  (Subject_CommonName issuer) (RevokedCertificates crl).
Proof.
  cbv zeta. split; [vm_compute; reflexivity|].
  apply (proj1 (proj1 (tickIssuer_shard_protocol
                         Scenario.matching Scenario.epoch 1 0 [] _))).
  vm_compute. reflexivity.
Defined.

(** C1 does not hold as it is worded.  Issuer A is ticked before issuer B,
    and the stream of its shard 0 breaks off: the error is logged, the
    request of its shard 1 is never made, and both shards of issuer B are
    requested. *)
Lemma tick_abandons_issuer :
  let cu := Scenario.twoIssuers in
  let run := fst (tick_over cu [(1, Scenario.issuerA); (2, Scenario.issuerB)] []) in
  let request id a b := {| IssuerNameID := id; ExpiresAfter := a;
                           ExpiresBefore := b; RevokedBefore := 0 |} in
  In (EvAuditErr "Issuer A" Scenario.epoch
                 (ErrRecvEntry 0 "transport is closing")) run
  /\ requestFor cu Scenario.epoch 1 0 = Some (request 1 3 8)
  /\ requestFor cu Scenario.epoch 1 1 = Some (request 1 (-2) 3)
  /\ requestFor cu Scenario.epoch 2 0 = Some (request 2 3 8)
  /\ requestFor cu Scenario.epoch 2 1 = Some (request 2 (-2) 3)
  /\ attempted run (request 1 3 8)
  /\ ~ attempted run (request 1 (-2) 3)
  /\ attempted run (request 2 3 8)
  /\ attempted run (request 2 (-2) 3).
Proof.
  cbv zeta. unfold attempted.
  repeat split; try (vm_compute; reflexivity); try (vm_compute; one_of).
  intros Hin. vm_compute in Hin. none_of Hin.
Qed.

Lemma tick_failure_isolation_witness :
  let cu := Scenario.twoIssuers in
  let h0 := [EvNow Scenario.epoch] in
  let atTime := Now (clk cu) h0 in
  let start := Now (clk cu) (h0 ++ [EvNow atTime]) in
  let h1 := (h0 ++ [EvNow atTime]) ++ [EvNow start] in
  let req := {| IssuerNameID := 1; ExpiresAfter := 3;
                ExpiresBefore := 8; RevokedBefore := 0 |} in
  let h2 := h1 ++ [EvGetRevokedCerts req; EvGenerateCRL;
                   EvCASend (metadataFor atTime 1)]
               ++ relayEvents [Scenario.entry "0a"]
               ++ [EvSARecv (RecvErr "transport is closing")] in
  let err := ErrRecvEntry 0 "transport is closing" in
  let now := Now (clk cu) h2 in
  let failed := [EvNow now; EvObserve "Issuer A" "failed" (time.Sub now start)] in
  tickIssuer_shard cu atTime 1 0 h1 = (h2, Returns (Some err))
  /\ (exists e, In err [ErrConnectSA 0 e; ErrRecvEntry 0 e;
                     ErrConnectCA 0 e; ErrSendMetadata 0 e;
                     ErrSendEntry 0 e; ErrReadCRL 0 e;
                     ErrParseCRL 0 e; ErrCheckSignature 0 e])
  /\ tickIssuer cu atTime 1 (h0 ++ [EvNow atTime])
     = (h2 ++ failed, Returns (Some err))
  /\ tick_issuers cu [(1, Scenario.issuerA); (2, Scenario.issuerB)] "success" h0
     = tick_issuers cu [(2, Scenario.issuerB)] "failed"
         ((h2 ++ failed) ++ [EvAuditErr "Issuer A" atTime err]).
Proof.
  cbv zeta.
  apply (tick_failure_isolation Scenario.twoIssuers 1 Scenario.issuerA
           Scenario.issuerA [(2, Scenario.issuerB)] "success" 0 1
           [EvNow Scenario.epoch]
           (([EvNow Scenario.epoch] ++ [EvNow Scenario.epoch])
            ++ [EvNow Scenario.epoch])).
  - vm_compute. reflexivity.
  - reflexivity.
  - reflexivity.
  - apply (FailRecvEntry Scenario.twoIssuers Scenario.epoch 1 0 _
             {| IssuerNameID := 1; ExpiresAfter := 3;
                ExpiresBefore := 8; RevokedBefore := 0 |}
             {| items := [Scenario.entry "0a"];
                fin := Some "transport is closing"%string |}
             Scenario.echoStream "transport is closing").
    + vm_compute. reflexivity.
    + reflexivity.
    + reflexivity.
    + cbn. auto.
    + reflexivity.
Defined.

(** The same holds when the generation service refuses the metadata. *)
Example metadata_refused :
  let cu := Scenario.withCA Scenario.deafCA in
  let req := {| IssuerNameID := 1; ExpiresAfter := 3;
                ExpiresBefore := 8; RevokedBefore := 0 |} in
  stageFails cu Scenario.epoch 1 0 []
    ([] ++ [EvGetRevokedCerts req; EvGenerateCRL;
            EvCASend (metadataFor Scenario.epoch 1)])
    (ErrSendMetadata 0 "stream closed")
  /\ tickIssuer cu Scenario.epoch 1 []
     = ([EvNow Scenario.epoch; EvGetRevokedCerts req; EvGenerateCRL;
         EvCASend (metadataFor Scenario.epoch 1);
         EvNow Scenario.epoch; EvObserve "Issuer A" "failed" 0],
        Returns (Some (ErrSendMetadata 0 "stream closed"))).
Proof.
  cbv zeta. split; [|vm_compute; reflexivity].
  apply (FailSendMetadata (Scenario.withCA Scenario.deafCA) Scenario.epoch 1 0 []
           _ {| items := Scenario.threeEntries; fin := None |}
           Scenario.deafStream).
  - vm_compute. reflexivity.
  - reflexivity.
  - reflexivity.
  - reflexivity.
Qed.

(** C2 does not hold as it is worded.  In the end-to-end scenario shard 1
    would go through by itself, but after the signature of shard 0 fails it
    is neither requested nor reported; the issuer is observed as failed. *)
Lemma tickIssuer_skips_shard_1 :
  let cu := Scenario.endToEnd in
  let run := fst (tickIssuer cu Scenario.epoch 1 []) in
  let request a b := {| IssuerNameID := 1; ExpiresAfter := a;
                        ExpiresBefore := b; RevokedBefore := 0 |} in
  snd (tickIssuer cu Scenario.epoch 1 [])
    = Returns (Some (ErrCheckSignature 0 "crypto/rsa: verification error"))
  /\ In (EvObserve "Issuer A" "failed" 0) run
  /\ requestFor cu Scenario.epoch 1 0 = Some (request 3 8)
  /\ requestFor cu Scenario.epoch 1 1 = Some (request (-2) 3)
  /\ GetRevokedCerts (sa cu) [] (request 3 8)
     = inr {| items := Scenario.threeEntries; fin := None |}
  /\ GetRevokedCerts (sa cu) [] (request (-2) 3)
     = inr {| items := []; fin := None |}
  /\ snd (tickIssuer_shard cu Scenario.epoch 1 1 []) = Returns None
  /\ attempted run (request 3 8)
  /\ ~ attempted run (request (-2) 3)
  /\ ~ reportedComplete run "Issuer A" 1.
Proof.
  cbv zeta. unfold attempted, reportedComplete.
  repeat split; try (vm_compute; reflexivity); try (vm_compute; one_of).
  - intros Hin. vm_compute in Hin. none_of Hin.
  - intros [n Hin]. vm_compute in Hin. none_of Hin.
Qed.

Lemma tickIssuer_end_to_end_witness :
  let cu := Scenario.endToEnd in
  let atTime := Scenario.epoch in
  let req := {| IssuerNameID := 1; ExpiresAfter := 3;
                ExpiresBefore := 8; RevokedBefore := 0 |} in
  let shard0 := checkedEvents req atTime 1 Scenario.threeEntries
                              [[Byte.x02]; [Byte.x03]] in
  let run := [EvNow atTime] ++ shard0
             ++ [EvNow atTime; EvObserve "Issuer A" "failed" 0] in
  tickIssuer cu atTime 1 []
    = ([] ++ run,
       Returns (Some (ErrCheckSignature 0 "crypto/rsa: verification error")))
  /\ (forall req', attempted run req' -> req' = req)
  /\ (forall cn k, ~ reportedComplete run cn k).
Proof.
  cbv zeta.
  apply (tickIssuer_end_to_end Scenario.endToEnd Scenario.epoch 1 []
           {| IssuerNameID := 1; ExpiresAfter := 3;
              ExpiresBefore := 8; RevokedBefore := 0 |}
           {| items := Scenario.threeEntries; fin := None |}
           Scenario.echoStream
           {| Scenario.signer := Byte.x02; Scenario.revoked := 3 |}
           Scenario.issuerA
           (Scenario.entry "0a") (Scenario.entry "0b") (Scenario.entry "0c")
           "crypto/rsa: verification error").
  - reflexivity.
  - vm_compute. reflexivity.
  - vm_compute. reflexivity.
  - reflexivity.
  - reflexivity.
  - reflexivity.
  - reflexivity.
  - cbn. auto.
  - reflexivity.
  - reflexivity.
  - reflexivity.
Defined.

(** * Further properties of the updater *)

(** ** getWindowForShard on every input *)

Section MoreWindows.

Context `{X509}.

Implicit Types (cu : crlUpdater) (t k : Z).

(** The call panics exactly when the shard count or the window is zero. *)
Theorem getWindowForShard_panics cu t shardID :
  getWindowForShard cu t shardID = None
  <-> numShards cu = 0 \/ windowWidth cu = 0.
Proof.
  unfold getWindowForShard, Int64.rem, Int64.quot, time.Nanoseconds.
  fold (windowWidth cu).
  destruct (decide (numShards cu = 0)) as [Hn|Hn]; cbn [mbind option_bind].
  { split; [tauto | reflexivity]. }
  destruct (decide (windowWidth cu = 0)) as [HW|HW]; cbn [mbind option_bind].
  { split; [tauto | reflexivity]. }
  destruct (time.Before _ _); split; intros Hc; try discriminate; tauto.
Qed.

(** The wrap-arounds do not occur for any shard ID, negative ones included:
    the ID enters by its remainder, which has the sign of the ID. *)
Lemma getWindowForShard_eq_rem cu t shardID :
  1 <= numShards cu -> 0 < windowWidth cu ->
  getWindowForShard cu t shardID =
    let k := Z.rem shardID (numShards cu) in
    let zeroStart := t - Z.rem (time.Sub t time.zero) (windowWidth cu) in
    let s := zeroStart + k * shardWidth cu in
    let e := s + shardWidth cu in
    if e <? t + Int64.neg (lookbackPeriod cu)
    then Some (s + windowWidth cu, e + windowWidth cu)
    else Some (s, e).
Proof.
  intros Hn HW.
  pose proof (windowWidth_le_max cu) as HWmax.
  unfold getWindowForShard, shardWidth.
  fold (windowWidth cu).
  set (W := windowWidth cu) in *. set (n := numShards cu) in *.
  unfold Int64.rem, Int64.quot, time.Nanoseconds, time.Add, time.Before.
  destruct (decide (n = 0)) as [?|_]; [lia|].
  destruct (decide (W = 0)) as [?|_]; [lia|].
  cbn [mbind option_bind].
  set (k := Z.rem shardID n).
  assert (Hk : Z.abs k < n).
  { pose proof (Z.rem_bound_abs shardID n ltac:(lia)). unfold k. lia. }
  assert (Hq : 0 <= Z.quot W n <= W).
  { rewrite Z.quot_div_nonneg by lia. split.
    - apply Z.div_pos; lia.
    - apply Z.div_le_upper_bound; nia. }
  assert (Hnq : n * Z.quot W n <= W).
  { rewrite Z.quot_div_nonneg by lia. apply Z.mul_div_le. lia. }
  assert (Hkq : - W <= k * Z.quot W n <= W) by nia.
  assert (Hr : Z.abs (Z.rem (time.Sub t time.zero) W) < W).
  { pose proof (Z.rem_bound_abs (time.Sub t time.zero) W ltac:(lia)). lia. }
  unfold Int64.max in HWmax.
  assert (Hneg : Int64.neg (Z.rem (time.Sub t time.zero) W)
                 = - Z.rem (time.Sub t time.zero) W).
  { apply wrap_in_range. unfold Int64.in_range, Int64.min, Int64.max. lia. }
  assert (Hmul : Int64.mul k (Z.quot W n) = k * Z.quot W n).
  { apply wrap_in_range. unfold Int64.in_range, Int64.min, Int64.max. lia. }
  assert (Hsw : Int64.wrap (Z.quot W n) = Z.quot W n).
  { apply wrap_in_range. unfold Int64.in_range, Int64.min, Int64.max. lia. }
  rewrite Hsw, Hneg, Hmul. cbv zeta.
  rewrite Z.add_opp_r.
  reflexivity.
Qed.

(** With at least one shard and a positive window the call returns, for any
    shard ID and any reference time, an interval as wide as one shard. *)
Theorem getWindowForShard_width cu t shardID :
  1 <= numShards cu -> 0 < windowWidth cu ->
  exists s, getWindowForShard cu t shardID = Some (s, s + shardWidth cu).
Proof.
  intros Hn HW. rewrite getWindowForShard_eq_rem by assumption. cbv zeta.
  destruct (_ <? _); eexists; f_equal; f_equal; lia.
Qed.

(** A negative shard ID gives the interval of its residue in
    [0, numShards), or the one a window width before it. *)
Theorem getWindowForShard_residue cu t shardID :
  configured cu -> 0 < windowWidth cu ->
  exists s e,
    getWindowForShard cu t (shardID mod numShards cu) = Some (s, e)
    /\ (getWindowForShard cu t shardID = Some (s, e)
        \/ getWindowForShard cu t shardID
           = Some (s - windowWidth cu, e - windowWidth cu)).
Proof.
  intros Hc HW.
  destruct (configured_widths cu Hc HW) as [Hsw Hnsw]. destruct Hc as [Hn _].
  rewrite !getWindowForShard_eq_rem by assumption. cbv zeta.
  pose proof (Z.mod_pos_bound shardID (numShards cu) ltac:(lia)) as Hm.
  rewrite (Z.rem_small (shardID mod numShards cu)) by lia.
  set (zs := t - Z.rem (time.Sub t time.zero) (windowWidth cu)).
  set (L := t + Int64.neg (lookbackPeriod cu)).
  set (W := windowWidth cu) in *. set (sw := shardWidth cu) in *.
  set (n := numShards cu) in *.
  assert (Hr : Z.rem shardID n = shardID mod n
               \/ Z.rem shardID n = shardID mod n - n).
  { destruct (Z.le_gt_cases 0 shardID).
    - left. apply Z.rem_mod_nonneg; lia.
    - pose proof (Z.rem_bound_pos_neg shardID n ltac:(lia) ltac:(lia)) as Hb.
      pose proof (Z.quot_rem' shardID n) as Hqr.
      pose proof (Z.div_mod shardID n ltac:(lia)) as Hdm.
      assert (Hd : shardID mod n - Z.rem shardID n
                   = n * (Z.quot shardID n - shardID / n)) by lia.
      assert (Z.quot shardID n - shardID / n = 0
              \/ Z.quot shardID n - shardID / n = 1) as [Hc|Hc] by nia.
      + left. lia.
      + right. lia. }
  destruct Hr as [-> | ->].
  - destruct (_ <? _); eauto.
  - set (r := shardID mod n) in *.
    destruct (Z.ltb_spec (zs + r * sw + sw) L);
      destruct (Z.ltb_spec (zs + (r - n) * sw + sw) L); try nia;
      do 2 eexists; (split; [reflexivity|]);
      first [ left; f_equal; f_equal; nia | right; f_equal; f_equal; nia ].
Qed.

(** For a lookback that is not negative the interval never ends before the
    left edge of the window; and for a reference time not before the zero
    time it ends no later than one window width after the reference time. *)
Theorem getWindowForShard_bounds cu t k :
  1 <= numShards cu -> 0 < windowWidth cu -> 0 <= k < numShards cu ->
  0 <= lookbackPeriod cu <= Int64.max ->
  exists s e, getWindowForShard cu t k = Some (s, e)
    /\ t - lookbackPeriod cu <= e
    /\ (0 <= t -> e <= t + windowWidth cu).
Proof.
  intros Hn HW Hk Hlb. rewrite getWindowForShard_eq by assumption. cbv zeta.
  rewrite neg_in_range by (unfold Int64.min, Int64.max in *; lia).
  assert (Hr : Z.abs (Z.rem (time.Sub t time.zero) (windowWidth cu))
               < windowWidth cu).
  { pose proof (Z.rem_bound_abs (time.Sub t time.zero) (windowWidth cu)
                  ltac:(lia)). lia. }
  assert (Hq : 0 <= shardWidth cu /\ numShards cu * shardWidth cu <= windowWidth cu).
  { unfold shardWidth. rewrite Z.quot_div_nonneg by lia. split.
    - apply Z.div_pos; lia.
    - apply Z.mul_div_le. lia. }
  set (zs := t - Z.rem (time.Sub t time.zero) (windowWidth cu)) in *.
  set (W := windowWidth cu) in *. set (sw := shardWidth cu) in *.
  destruct (Z.ltb_spec (zs + k * sw + sw) (t + - lookbackPeriod cu)).
  - do 2 eexists. split; [reflexivity|]. split; [nia|]. intros Ht. lia.
  - do 2 eexists. split; [reflexivity|]. split; [lia|]. intros Ht.
    pose proof (zeroStart_bounds cu t HW Ht) as Hz. cbv zeta in Hz. fold zs W in Hz.
    nia.
Qed.

(** Once the offset from the zero time has left the [Duration] range the
    interval follows the reference time: moving the one by any amount moves
    the other by the same. *)
Theorem getWindowForShard_follows cu t1 t2 k :
  1 <= numShards cu -> 0 < windowWidth cu -> 0 <= k < numShards cu ->
  Int64.max <= t1 -> Int64.max <= t2 ->
  getWindowForShard cu t2 k
  = (fun i => (fst i + (t2 - t1), snd i + (t2 - t1)))
      <$> getWindowForShard cu t1 k.
Proof.
  intros Hn HW Hk Ht1 Ht2.
  rewrite !getWindowForShard_eq by assumption.
  rewrite !Sub_zero_saturated by assumption. cbv zeta.
  set (c := Z.rem Int64.max (windowWidth cu)).
  set (L := Int64.neg (lookbackPeriod cu)).
  destruct (Z.ltb_spec (t1 - c + k * shardWidth cu + shardWidth cu) (t1 + L));
    destruct (Z.ltb_spec (t2 - c + k * shardWidth cu + shardWidth cu) (t2 + L));
    try lia; cbn; f_equal; f_equal; lia.
Qed.

(** Up to 2^63-1 ns after the zero time the interval of a shard never moves
    back as the reference time advances. *)
Theorem getWindowForShard_monotone cu t1 t2 k :
  1 <= numShards cu -> 0 < windowWidth cu -> 0 <= k < numShards cu ->
  0 <= t1 -> t1 <= t2 -> t2 <= Int64.max ->
  exists s1 s2,
    getWindowForShard cu t1 k = Some (s1, s1 + shardWidth cu)
    /\ getWindowForShard cu t2 k = Some (s2, s2 + shardWidth cu)
    /\ s1 <= s2.
Proof.
  intros Hn HW Hk Ht1 Ht12 Ht2.
  rewrite !getWindowForShard_eq by assumption.
  rewrite !Sub_zero_exact by lia.
  rewrite !Z.rem_mod_nonneg by lia. cbv zeta.
  pose proof (Z.div_mod t1 (windowWidth cu) ltac:(lia)) as H1.
  pose proof (Z.div_mod t2 (windowWidth cu) ltac:(lia)) as H2.
  pose proof (Z.div_le_mono t1 t2 (windowWidth cu) HW Ht12) as Hd.
  pose proof (Z.mod_pos_bound t1 (windowWidth cu) HW).
  pose proof (Z.mod_pos_bound t2 (windowWidth cu) HW).
  set (L := Int64.neg (lookbackPeriod cu)).
  set (W := windowWidth cu) in *. set (sw := shardWidth cu) in *.
  assert (Hz : t1 - t1 mod W = t2 - t2 mod W \/ t1 - t1 mod W + W <= t2 - t2 mod W).
  { destruct (Z.eq_dec (t1 / W) (t2 / W)) as [He|He]; [left; nia | right; nia]. }
  assert (Hshift : forall s, Some (s + W, s + sw + W) = Some (s + W, s + W + sw))
    by (intros s; f_equal; f_equal; lia).
  rewrite !Hshift.
  destruct (Z.ltb_spec (t1 - t1 mod W + k * sw + sw) (t1 + L));
    destruct (Z.ltb_spec (t2 - t2 mod W + k * sw + sw) (t2 + L));
    do 2 eexists; (split; [reflexivity|]); (split; [reflexivity|]); lia.
Qed.

End MoreWindows.

(** ** The events of a run *)

Section MoreRuns.

Context `{X509}.

Implicit Types (cu : crlUpdater) (h evs : list Event).

Lemma streamEvent_shardEvent e : streamEvent e -> shardEvent e.
Proof. destruct e; cbn; tauto. Qed.

Lemma requestsOf_streamEvents evs : Forall streamEvent evs -> requestsOf evs = [].
Proof.
  induction 1 as [|e evs He _ IH]; [reflexivity|].
  unfold requestsOf in *. cbn. rewrite IH. destruct e; cbn in *; tauto.
Qed.

Lemma observations_shardEvents evs : Forall shardEvent evs -> observations evs = [].
Proof.
  induction 1 as [|e evs He _ IH]; [reflexivity|].
  unfold observations in *. cbn. rewrite IH. destruct e; cbn in *; tauto.
Qed.

Lemma auditErrors_shardEvents evs : Forall shardEvent evs -> auditErrors evs = [].
Proof.
  induction 1 as [|e evs He _ IH]; [reflexivity|].
  unfold auditErrors in *. cbn. rewrite IH. destruct e; cbn in *; tauto.
Qed.

Lemma relayEntries_events caStream k sent entries fin h :
  exists evs, fst (relayEntries caStream k sent entries fin h) = h ++ evs
              /\ Forall streamEvent evs.
Proof.
  revert sent h. induction entries as [|entry entries IH]; intros sent h.
  - destruct fin; cbn; eexists; (split; [reflexivity|]);
      repeat constructor.
  - cbn [relayEntries]. unfold bind at 1 2, emit at 1 2.
    destruct (Send caStream sent _).
    + cbn. rewrite <- app_assoc. eexists. split; [reflexivity|].
      repeat constructor.
    + destruct (IH (sent ++ [GenerateCRLRequest_Entry entry])
                   ((h ++ [EvSARecv (Msg entry)])
                      ++ [EvCASend (GenerateCRLRequest_Entry entry)]))
        as (evs & -> & Hall).
      rewrite <- !app_assoc. eexists. split; [reflexivity|].
      cbn. repeat constructor. exact Hall.
Qed.

(** One turn: unless the window computation panics, it makes the request of
    the shard and goes on with events of the two streams only. *)
Lemma tickIssuer_shard_events cu atTime id k h :
  exists evs, fst (tickIssuer_shard cu atTime id k h) = h ++ evs
    /\ ((evs = [] /\ requestFor cu atTime id k = None)
        \/ exists req rest, evs = EvGetRevokedCerts req :: rest
             /\ requestFor cu atTime id k = Some req
             /\ Forall streamEvent rest).
Proof.
  unfold tickIssuer_shard, requestFor.
  destruct (getWindowForShard cu atTime k) as [[a b]|];
    [|exists []; cbn; rewrite app_nil_r; auto].
  cbn [mbind option_bind fst snd].
  set (req := {| IssuerNameID := id; ExpiresAfter := time.UnixNano a;
                 ExpiresBefore := time.UnixNano b;
                 RevokedBefore := time.UnixNano atTime |}).
  assert (Hgoal : forall (r : list Event * outcome (option updaterError)) rest,
            fst r = (h ++ [EvGetRevokedCerts req]) ++ rest ->
            Forall streamEvent rest ->
            exists evs, fst r = h ++ evs
              /\ ((evs = [] /\ Some req = None)
                  \/ exists req' rest', evs = EvGetRevokedCerts req' :: rest'
                       /\ Some req = Some req' /\ Forall streamEvent rest')).
  { intros r rest -> Hall. rewrite <- app_assoc. eexists. split; [reflexivity|].
    right. eauto. }
  unfold bind at 1, call at 1.
  destruct (GetRevokedCerts _ _ _) as [e|saStream].
  { apply (Hgoal _ []); [cbn; rewrite app_nil_r; reflexivity | constructor]. }
  unfold bind at 1, call at 1.
  destruct (GenerateCRL _ _) as [e|caStream].
  { apply (Hgoal _ [EvGenerateCRL]); [reflexivity | repeat constructor]. }
  unfold bind at 1, emit at 1.
  destruct (Send caStream [] _) as [e|].
  { eapply (Hgoal _ [EvGenerateCRL; EvCASend _]);
      [cbn; rewrite <- !app_assoc; reflexivity | repeat constructor]. }
  unfold bind at 1.
  match goal with |- context [relayEntries ?c ?k ?s ?es ?f ?h1] =>
    destruct (relayEntries_events c k s es f h1) as (evs1 & Hfst1 & Hall1);
    destruct (relayEntries c k s es f h1) as [h2 [[err|sent]|]]
  end; cbn [fst] in Hfst1; subst h2.
  { eapply (Hgoal _ ([EvGenerateCRL; EvCASend _] ++ evs1));
      [cbn; rewrite <- !app_assoc; reflexivity|].
    repeat constructor. exact Hall1. }
  2:{ eapply (Hgoal _ ([EvGenerateCRL; EvCASend _] ++ evs1));
      [cbn; rewrite <- !app_assoc; reflexivity|].
    repeat constructor. exact Hall1. }
  unfold bind at 1. rewrite readChunks_run.
  set (out := Output caStream sent).
  assert (Hall2 : Forall streamEvent
            ([EvGenerateCRL; EvCASend (metadataFor atTime id)] ++ evs1
             ++ map (fun c => EvCARecv (Msg c)) (items out)
             ++ [EvCARecv (match fin out with
                           | None => EOF | Some e => RecvErr e end)])).
  { repeat constructor. rewrite !Forall_app. split; [exact Hall1|]. split.
    - apply Forall_map, Forall_true. intros c. exact I.
    - repeat constructor. }
  destruct (fin out) as [e|] eqn:Hout.
  { eapply (Hgoal _ _); [|exact Hall2]. cbn. rewrite <- !app_assoc. reflexivity. }
  unfold bind at 1, emit at 1.
  destruct (ParseDERCRL _) as [e|crl].
  { eapply (Hgoal _ (_ ++ [EvParseDERCRL _]));
      [|rewrite Forall_app; split; [exact Hall2 | repeat constructor]].
    cbn. rewrite <- !app_assoc. reflexivity. }
  destruct (issuers cu !! id) as [issuer|].
  2:{ eapply (Hgoal _ (_ ++ [EvParseDERCRL _]));
      [|rewrite Forall_app; split; [exact Hall2 | repeat constructor]].
    cbn. rewrite <- !app_assoc. reflexivity. }
  unfold bind at 1, emit at 1.
  destruct (CheckCRLSignature issuer crl) as [e|].
  { eapply (Hgoal _ (_ ++ [EvParseDERCRL _; EvCheckCRLSignature _]));
      [|rewrite Forall_app; split; [exact Hall2 | repeat constructor]].
    cbn. rewrite <- !app_assoc. reflexivity. }
  unfold bind at 1, emit at 1, ret.
  eapply (Hgoal _ (_ ++ [EvParseDERCRL _; EvCheckCRLSignature _; EvDebug _ _ _]));
    [|rewrite Forall_app; split; [exact Hall2 | repeat constructor]].
  cbn. rewrite <- !app_assoc. reflexivity.
Qed.

Lemma requestsOf_app evs1 evs2 :
  requestsOf (evs1 ++ evs2) = requestsOf evs1 ++ requestsOf evs2.
Proof. apply omap_app. Qed.

Lemma reportedShards_app evs1 evs2 :
  reportedShards (evs1 ++ evs2) = reportedShards evs1 ++ reportedShards evs2.
Proof. apply omap_app. Qed.

Lemma observations_app evs1 evs2 :
  observations (evs1 ++ evs2) = observations evs1 ++ observations evs2.
Proof. apply omap_app. Qed.

Lemma auditErrors_app evs1 evs2 :
  auditErrors (evs1 ++ evs2) = auditErrors evs1 ++ auditErrors evs2.
Proof. apply omap_app. Qed.

Lemma requestFor_fields cu atTime id k req :
  requestFor cu atTime id k = Some req ->
  IssuerNameID req = id /\ RevokedBefore req = time.UnixNano atTime.
Proof.
  unfold requestFor. destruct (getWindowForShard cu atTime k); [|discriminate].
  cbn. intros [= <-]. auto.
Qed.

(** The turns of the loop, however they end. *)
Lemma tickIssuer_shards_events cu atTime id s n h :
  exists evs, fst (tickIssuer_shards cu atTime id s n h) = h ++ evs
    /\ Forall shardEvent evs
    /\ (length (requestsOf evs) <= n)%nat
    /\ Forall (fun req => IssuerNameID req = id
                          /\ RevokedBefore req = time.UnixNano atTime)
              (requestsOf evs).
Proof.
  revert s h. induction n as [|n IH]; intros s h.
  - exists []. cbn. rewrite app_nil_r.
    split; [reflexivity|]. split; [constructor|]. split; [lia | constructor].
  - cbn [tickIssuer_shards]. unfold bind at 1.
    destruct (tickIssuer_shard_events cu atTime id s h) as (evs1 & Hfst & Hshape).
    assert (Hone : Forall shardEvent evs1
                   /\ (length (requestsOf evs1) <= 1)%nat
                   /\ Forall (fun req => IssuerNameID req = id
                                /\ RevokedBefore req = time.UnixNano atTime)
                             (requestsOf evs1)).
    { destruct Hshape as [[-> _]|(req & rest & -> & Hreq & Hall)].
      - split; [constructor|]. split; [cbn; lia | constructor].
      - change (requestsOf (EvGetRevokedCerts req :: rest))
          with (req :: requestsOf rest).
        rewrite (requestsOf_streamEvents _ Hall). cbn.
        repeat split; [|lia|].
        + constructor; [exact I|].
          eapply Forall_impl; [exact Hall|]. apply streamEvent_shardEvent.
        + constructor; [|constructor]. eapply requestFor_fields, Hreq. }
    destruct Hone as (Hall1 & Hlen1 & Hreq1).
    destruct (tickIssuer_shard cu atTime id s h) as [h1 [[err|]|]];
      cbn [fst] in Hfst; subst h1.
    + exists evs1. cbn. repeat split; try assumption. lia.
    + destruct (IH (s + 1) (h ++ evs1)) as (evs2 & -> & Hall2 & Hlen2 & Hreq2).
      exists (evs1 ++ evs2). rewrite <- app_assoc. rewrite requestsOf_app.
      rewrite length_app, !Forall_app. repeat split; try assumption. lia.
    + exists evs1. cbn. repeat split; try assumption. lia.
Qed.

(** [tickIssuer] by its loop: the clock is read, the loop runs, and the
    deferred function observes the label under the name of the issuer, also
    when the loop panics; for an issuer that is not in the map the deferred
    function panics itself. *)
Lemma tickIssuer_unfold cu atTime id h :
  tickIssuer cu atTime id h =
    let start := Now (clk cu) h in
    let body := tickIssuer_shards cu atTime id 0 (Z.to_nat (numShards cu))
                  (h ++ [EvNow start]) in
    match issuers cu !! id with
    | None => (fst body, Panics)
    | Some issuer =>
        let now := Now (clk cu) (fst body) in
        (fst body ++ [EvNow now;
                      EvObserve (Subject_CommonName issuer)
                                (resultLabel (snd body)) (time.Sub now start)],
         snd body)
    end.
Proof.
  unfold tickIssuer. unfold bind at 1, clkNow at 1, defer. cbv zeta.
  destruct (tickIssuer_shards _ _ _ _ _ _) as [hb [r|]];
    destruct (issuers cu !! id); cbn [fst snd];
    unfold panic, bind, clkNow, emit; cbn [fst snd];
    rewrite <- ?app_assoc; reflexivity.
Qed.

(** Whatever happens in its loop, [tickIssuer] for an issuer of the map
    records exactly one observation, under the name of the issuer, and writes
    nothing to the audit log.  The observation is "failed" exactly when an
    error is returned; a run that panics is observed as "success". *)
Theorem tickIssuer_observes_once cu atTime id issuer h :
  issuers cu !! id = Some issuer ->
  exists evs o, tickIssuer cu atTime id h = (h ++ evs, o)
    /\ observations evs = [(Subject_CommonName issuer, resultLabel o)]
    /\ auditErrors evs = []
    /\ (resultLabel o = "failed" <-> exists err, o = Returns (Some err)).
Proof.
  intros Hiss. rewrite tickIssuer_unfold, Hiss. cbv zeta.
  destruct (tickIssuer_shards_events cu atTime id 0 (Z.to_nat (numShards cu))
              (h ++ [EvNow (Now (clk cu) h)])) as (evs & Hfst & Hall & _).
  destruct (tickIssuer_shards _ _ _ _ _ _) as [hb o]. cbn [fst snd] in *.
  subst hb. rewrite <- !app_assoc.
  eexists _, o. split; [reflexivity|].
  rewrite !observations_app, !auditErrors_app.
  rewrite (observations_shardEvents _ Hall), (auditErrors_shardEvents _ Hall).
  split; [reflexivity|]. split; [reflexivity|].
  destruct o as [[err|]|]; cbn; split; try discriminate; eauto;
    intros [err' Herr]; discriminate.
Qed.

(** One call of [tickIssuer] asks the data source at most [numShards] times,
    and only about the issuer and the reference time it was called with. *)
Theorem tickIssuer_requests_bounded cu atTime id h :
  exists evs o, tickIssuer cu atTime id h = (h ++ evs, o)
    /\ (length (requestsOf evs) <= Z.to_nat (numShards cu))%nat
    /\ Forall (fun req => IssuerNameID req = id
                          /\ RevokedBefore req = time.UnixNano atTime)
              (requestsOf evs).
Proof.
  rewrite tickIssuer_unfold. cbv zeta.
  destruct (tickIssuer_shards_events cu atTime id 0 (Z.to_nat (numShards cu))
              (h ++ [EvNow (Now (clk cu) h)]))
    as (evs & Hfst & Hall & Hlen & Hreq).
  destruct (tickIssuer_shards _ _ _ _ _ _) as [hb o]. cbn [fst snd] in *.
  subst hb.
  destruct (issuers cu !! id) as [issuer|]; rewrite <- !app_assoc;
    eexists _, _; (split; [reflexivity|]);
    rewrite !requestsOf_app; cbn; rewrite ?app_nil_r; auto.
Qed.

(** An issuer that is not in the map makes [tickIssuer] panic, with no
    observation. *)
Theorem tickIssuer_unknown_issuer cu atTime id h :
  issuers cu !! id = None ->
  exists evs, tickIssuer cu atTime id h = (h ++ evs, Panics)
    /\ observations evs = [].
Proof.
  intros Hiss. rewrite tickIssuer_unfold, Hiss. cbv zeta.
  destruct (tickIssuer_shards_events cu atTime id 0 (Z.to_nat (numShards cu))
              (h ++ [EvNow (Now (clk cu) h)])) as (evs & -> & Hall & _).
  rewrite <- app_assoc. eexists. split; [reflexivity|].
  rewrite observations_app, (observations_shardEvents _ Hall). reflexivity.
Qed.

Lemma omap_relayEvents {A} (f : Event -> option A) entries :
  (forall r, f (EvSARecv r) = None) -> (forall m, f (EvCASend m) = None) ->
  omap f (relayEvents entries) = [].
Proof.
  intros Hrecv Hsend. induction entries as [|entry entries IH]; [reflexivity|].
  cbn. rewrite Hrecv, Hsend. exact IH.
Qed.

Lemma omap_recvs {A} (f : Event -> option A) (chunks : list (list Byte.byte)) :
  (forall r, f (EvCARecv r) = None) ->
  omap f (map (fun out => EvCARecv (Msg out)) chunks) = [].
Proof.
  intros Hrecv. induction chunks as [|out chunks IH]; [reflexivity|].
  cbn. rewrite Hrecv. exact IH.
Qed.

Lemma requestsOf_shardEvents req atTime id k entries chunks cn n :
  requestsOf (shardEvents req atTime id k entries chunks cn n) = [req].
Proof.
  unfold shardEvents, checkedEvents, requestsOf. rewrite !omap_app.
  rewrite omap_relayEvents, omap_recvs by reflexivity. reflexivity.
Qed.

Lemma reportedShards_shardEvents req atTime id k entries chunks cn n :
  reportedShards (shardEvents req atTime id k entries chunks cn n) = [k].
Proof.
  unfold shardEvents, checkedEvents, reportedShards. rewrite !omap_app.
  rewrite omap_relayEvents, omap_recvs by reflexivity. reflexivity.
Qed.

(** Turns that all end without an error: each made the request of its shard
    and logged its list. *)
Lemma tickIssuer_shards_success cu atTime id s n h h' :
  tickIssuer_shards cu atTime id s n h = (h', Returns None) ->
  exists evs, h' = h ++ evs
    /\ Some <$> requestsOf evs = requestFor cu atTime id <$> seqZ s (Z.of_nat n)
    /\ reportedShards evs = seqZ s (Z.of_nat n).
Proof.
  revert s h. induction n as [|n IH]; intros s h Hrun.
  - cbn in Hrun. injection Hrun as <-. exists []. rewrite app_nil_r. auto.
  - cbn [tickIssuer_shards] in Hrun. unfold bind at 1 in Hrun.
    destruct (tickIssuer_shard cu atTime id s h) as [h1 [[err|]|]] eqn:Hturn;
      [discriminate| |discriminate].
    destruct (tickIssuer_shard_inv _ _ _ _ _ _ Hturn)
      as (req & saStream & caStream & crl & issuer & Hreq & Hsa & Hfin & Hca
          & Hacc & Hout & Hparse & Hiss & Hsig).
    pose proof (tickIssuer_shard_checked _ _ _ _ _ _ _ _ _ _
                  Hreq Hsa Hfin Hca Hacc Hout Hparse Hiss) as Hok.
    rewrite Hsig, Hturn in Hok. injection Hok as ->.
    destruct (IH _ _ Hrun) as (evs & -> & Hreqs & Hreps).
    eexists. rewrite <- app_assoc. split; [reflexivity|].
    rewrite requestsOf_app, reportedShards_app.
    rewrite requestsOf_shardEvents, reportedShards_shardEvents.
    rewrite (seqZ_cons s) by lia.
    replace (Z.pred (Z.of_nat (S n))) with (Z.of_nat n) by lia.
    replace (Z.succ s) with (s + 1) by lia.
    cbn [app fmap list_fmap]. rewrite Hreps. split; [|reflexivity].
    change (list_fmap _ _ Some (requestsOf evs)) with (Some <$> requestsOf evs).
    rewrite Hreqs, Hreq. reflexivity.
Qed.

Lemma seqZ_to_nat m n : seqZ m (Z.of_nat (Z.to_nat n)) = seqZ m n.
Proof. unfold seqZ. rewrite Nat2Z.id. reflexivity. Qed.

(** When [tickIssuer] returns without an error the issuer is in the map,
    every shard from 0 to [numShards]-1 was requested, in this order, and
    logged as complete, and the issuer is observed under "success". *)
Theorem tickIssuer_success cu atTime id h h' :
  tickIssuer cu atTime id h = (h', Returns None) ->
  exists issuer evs,
    issuers cu !! id = Some issuer
    /\ h' = h ++ evs
    /\ Some <$> requestsOf evs
       = requestFor cu atTime id <$> seqZ 0 (numShards cu)
    /\ reportedShards evs = seqZ 0 (numShards cu)
    /\ observations evs = [(Subject_CommonName issuer, "success")].
Proof.
  rewrite tickIssuer_unfold. cbv zeta.
  destruct (issuers cu !! id) as [issuer|]; [|discriminate].
  destruct (tickIssuer_shards _ _ _ _ _ _) as [hb o] eqn:Hbody.
  cbn [fst snd]. intros [= <- ->].
  destruct (tickIssuer_shards_success _ _ _ _ _ _ _ Hbody)
    as (evs & -> & Hreqs & Hreps).
  rewrite seqZ_to_nat in Hreqs, Hreps.
  exists issuer. eexists. split; [reflexivity|].
  rewrite <- !app_assoc. split; [reflexivity|].
  rewrite !requestsOf_app, !reportedShards_app, !observations_app.
  cbn [requestsOf reportedShards observations omap app].
  rewrite !app_nil_r.
  split; [exact Hreqs|]. split; [exact Hreps|].
  assert (Hall : Forall shardEvent evs).
  { destruct (tickIssuer_shards_events cu atTime id 0 (Z.to_nat (numShards cu))
                (h ++ [EvNow (Now (clk cu) h)])) as (evs' & Hfst & Hall & _).
    rewrite Hbody in Hfst. cbn [fst] in Hfst.
    apply app_inv_head in Hfst. subst evs'. exact Hall. }
  rewrite (observations_shardEvents _ Hall). reflexivity.
Qed.

End MoreRuns.

(** ** Stages at which a turn ends *)

Section Stages.

Context `{X509}.

Implicit Types (cu : crlUpdater) (h : list Event).

Lemma relayEntries_rejected caStream k sent pre entry post fin h err :
  accepts caStream sent (map GenerateCRLRequest_Entry pre) ->
  Send caStream (sent ++ map GenerateCRLRequest_Entry pre)
       (GenerateCRLRequest_Entry entry) = Some err ->
  relayEntries caStream k sent (pre ++ entry :: post) fin h =
    (h ++ relayEvents pre
       ++ [EvSARecv (Msg entry); EvCASend (GenerateCRLRequest_Entry entry)],
     Returns (inl (ErrSendEntry k err))).
Proof.
  revert sent h. induction pre as [|e pre IH]; intros sent h Hacc Hsend.
  - cbn [map app] in *. rewrite app_nil_r in Hsend.
    cbn [relayEntries]. unfold bind at 1 2, emit at 1 2. rewrite Hsend.
    unfold ret. rewrite <- app_assoc. reflexivity.
  - cbn [map accepts] in Hacc. destruct Hacc as [Hone Hacc].
    cbn [app relayEntries]. unfold bind at 1 2, emit at 1 2. rewrite Hone.
    rewrite IH; [|exact Hacc|].
    + rewrite <- !app_assoc. reflexivity.
    + rewrite <- app_assoc. exact Hsend.
Qed.

(** If a stream cannot be opened the turn ends there.  When the data source
    refuses, the generation service is not called; when the generation
    service refuses, the stream of the data source is left unread. *)
Theorem tickIssuer_shard_not_opened cu atTime id k h req err :
  requestFor cu atTime id k = Some req ->
  (GetRevokedCerts (sa cu) h req = inl err ->
   tickIssuer_shard cu atTime id k h
   = (h ++ [EvGetRevokedCerts req], Returns (Some (ErrConnectSA k err))))
  /\ (forall saStream,
        GetRevokedCerts (sa cu) h req = inr saStream ->
        GenerateCRL (ca cu) (h ++ [EvGetRevokedCerts req]) = inl err ->
        tickIssuer_shard cu atTime id k h
        = (h ++ [EvGetRevokedCerts req; EvGenerateCRL],
           Returns (Some (ErrConnectCA k err)))).
Proof.
  intros Hreq. unfold requestFor in Hreq. unfold tickIssuer_shard.
  destruct (getWindowForShard cu atTime k) as [[a b]|]; [|discriminate].
  cbn in Hreq. injection Hreq as <-.
  split.
  - intros Hsa. unfold bind at 1, call at 1. rewrite Hsa. reflexivity.
  - intros saStream Hsa Hca. unfold bind at 1, call at 1. rewrite Hsa.
    unfold bind at 1, call at 1. rewrite Hca. unfold ret.
    rewrite <- app_assoc. reflexivity.
Qed.

(** When the stream of the data source breaks off with an error, the entries
    read before it have been sent on and stay sent; the output of the
    generation service is not read and nothing is parsed. *)
Theorem tickIssuer_shard_read_error cu atTime id k h req saStream caStream err :
  requestFor cu atTime id k = Some req ->
  GetRevokedCerts (sa cu) h req = inr saStream ->
  fin saStream = Some err ->
  GenerateCRL (ca cu) (h ++ [EvGetRevokedCerts req]) = inr caStream ->
  accepts caStream []
    (metadataFor atTime id :: map GenerateCRLRequest_Entry (items saStream)) ->
  tickIssuer_shard cu atTime id k h =
    (h ++ [EvGetRevokedCerts req; EvGenerateCRL;
           EvCASend (metadataFor atTime id)]
       ++ relayEvents (items saStream) ++ [EvSARecv (RecvErr err)],
     Returns (Some (ErrRecvEntry k err))).
Proof.
  intros Hreq Hsa Hfin Hca Hacc.
  unfold requestFor in Hreq. unfold tickIssuer_shard.
  destruct (getWindowForShard cu atTime k) as [[a b]|]; [|discriminate].
  cbn in Hreq. injection Hreq as <-.
  unfold bind at 1, call at 1. rewrite Hsa.
  unfold bind at 1, call at 1. rewrite Hca.
  unfold bind at 1, emit at 1.
  cbn [accepts] in Hacc. destruct Hacc as [Hmeta Hacc]. cbn [app] in Hacc.
  fold (metadataFor atTime id). rewrite Hmeta.
  unfold bind at 1. rewrite (relayEntries_ok _ _ _ _ _ _ Hacc). rewrite Hfin.
  unfold ret. rewrite <- !app_assoc. reflexivity.
Qed.

(** When the generation service refuses an entry, the entries after it are
    not read from the data source, and the output is not read. *)
Theorem tickIssuer_shard_send_rejected cu atTime id k h req saStream caStream
    pre entry post err :
  requestFor cu atTime id k = Some req ->
  GetRevokedCerts (sa cu) h req = inr saStream ->
  items saStream = pre ++ entry :: post ->
  GenerateCRL (ca cu) (h ++ [EvGetRevokedCerts req]) = inr caStream ->
  accepts caStream []
    (metadataFor atTime id :: map GenerateCRLRequest_Entry pre) ->
  Send caStream (metadataFor atTime id :: map GenerateCRLRequest_Entry pre)
       (GenerateCRLRequest_Entry entry) = Some err ->
  tickIssuer_shard cu atTime id k h =
    (h ++ [EvGetRevokedCerts req; EvGenerateCRL;
           EvCASend (metadataFor atTime id)]
       ++ relayEvents pre
       ++ [EvSARecv (Msg entry); EvCASend (GenerateCRLRequest_Entry entry)],
     Returns (Some (ErrSendEntry k err))).
Proof.
  intros Hreq Hsa Hitems Hca Hacc Hsend.
  unfold requestFor in Hreq. unfold tickIssuer_shard.
  destruct (getWindowForShard cu atTime k) as [[a b]|]; [|discriminate].
  cbn in Hreq. injection Hreq as <-.
  unfold bind at 1, call at 1. rewrite Hsa.
  unfold bind at 1, call at 1. rewrite Hca.
  unfold bind at 1, emit at 1.
  cbn [accepts] in Hacc. destruct Hacc as [Hmeta Hacc]. cbn [app] in Hacc.
  fold (metadataFor atTime id). rewrite Hmeta.
  unfold bind at 1. rewrite Hitems.
  rewrite (relayEntries_rejected _ _ _ _ _ _ _ _ _ Hacc Hsend).
  unfold ret. rewrite <- !app_assoc. reflexivity.
Qed.

(** When the output of the generation service ends with an error, or its
    bytes do not parse, the turn ends with that error: the signature is not
    checked, and the map of the issuers is not consulted. *)
Theorem tickIssuer_shard_unparsed cu atTime id k h req saStream caStream err :
  requestFor cu atTime id k = Some req ->
  GetRevokedCerts (sa cu) h req = inr saStream ->
  fin saStream = None ->
  GenerateCRL (ca cu) (h ++ [EvGetRevokedCerts req]) = inr caStream ->
  accepts caStream []
    (metadataFor atTime id :: map GenerateCRLRequest_Entry (items saStream)) ->
  let out := Output caStream
    (metadataFor atTime id :: map GenerateCRLRequest_Entry (items saStream)) in
  let streamed :=
    [EvGetRevokedCerts req; EvGenerateCRL; EvCASend (metadataFor atTime id)]
    ++ relayEvents (items saStream) ++ [EvSARecv EOF]
    ++ map (fun c => EvCARecv (Msg c)) (items out) in
  (fin out = Some err ->
   tickIssuer_shard cu atTime id k h
   = (h ++ streamed ++ [EvCARecv (RecvErr err)],
      Returns (Some (ErrReadCRL k err))))
  /\ (fin out = None -> ParseDERCRL (concat (items out)) = inl err ->
      tickIssuer_shard cu atTime id k h
      = (h ++ streamed ++ [EvCARecv EOF; EvParseDERCRL (concat (items out))],
         Returns (Some (ErrParseCRL k err)))).
Proof.
  intros Hreq Hsa Hfin Hca Hacc out streamed.
  unfold requestFor in Hreq.
  destruct (getWindowForShard cu atTime k) as [[a b]|] eqn:Hw; [|discriminate].
  cbn in Hreq. injection Hreq as <-.
  cbn [accepts] in Hacc. destruct Hacc as [Hmeta Hacc]. cbn [app] in Hacc.
  assert (Hcommon : tickIssuer_shard cu atTime id k h =
    match fin out with
    | Some e => (h ++ streamed ++ [EvCARecv (RecvErr e)],
                 Returns (Some (ErrReadCRL k e)))
    | None =>
        match ParseDERCRL (concat (items out)) with
        | inl e =>
            (h ++ streamed ++ [EvCARecv EOF; EvParseDERCRL (concat (items out))],
             Returns (Some (ErrParseCRL k e)))
        | inr crl => tickIssuer_shard cu atTime id k h
        end
    end).
  { destruct (fin out) as [e|] eqn:Hout;
      [|destruct (ParseDERCRL (concat (items out))) as [e|crl] eqn:Hparse;
        [|reflexivity]];
      unfold tickIssuer_shard; rewrite Hw;
      unfold bind at 1, call at 1; rewrite Hsa;
      unfold bind at 1, call at 1; rewrite Hca;
      unfold bind at 1, emit at 1;
      fold (metadataFor atTime id); rewrite Hmeta;
      unfold bind at 1; rewrite (relayEntries_ok _ _ _ _ _ _ Hacc); rewrite Hfin;
      cbn [app]; fold out;
      unfold bind at 1; rewrite readChunks_run; rewrite Hout.
    - unfold ret, streamed. rewrite <- !app_assoc. reflexivity.
    - cbn [app]. unfold bind at 1, emit at 1. rewrite Hparse.
      unfold ret, streamed. rewrite <- !app_assoc. cbn [app]. reflexivity. }
  split.
  - intros Hout. rewrite Hcommon, Hout. reflexivity.
  - intros Hout Hparse. rewrite Hcommon, Hout, Hparse. reflexivity.
Qed.

End Stages.

(** ** From construction to the ticks *)

Section Ticks.

Context `{X509}.

Implicit Types (cu : crlUpdater) (h : list Event).

Lemma NewUpdater_inr certs n lookback lookforward period saClient caClient
    stats clock cu :
  NewUpdater certs n lookback lookforward period saClient caClient stats clock
    = Returns (inr cu) ->
  1 <= n /\ period < 7 * 24 * time.Hour
  /\ Z.rem (Int64.add lookback lookforward) n = 0
  /\ issuers cu = issuersByNameID certs
  /\ numShards cu = n /\ lookbackPeriod cu = lookback
  /\ lookforwardPeriod cu = lookforward /\ updatePeriod cu = period
  /\ sa cu = saClient /\ ca cu = caClient /\ clk cu = clock.
Proof.
  unfold NewUpdater, Int64.rem, time.Nanoseconds, MustRegister.
  destruct (Z.ltb_spec n 1); [discriminate|].
  destruct (Z.leb_spec (7 * 24 * time.Hour) period); [discriminate|].
  destruct (decide (n = 0)); [discriminate|].
  destruct (Z.eqb_spec (Z.rem (Int64.add lookback lookforward) n) 0);
    cbn [negb]; [|discriminate].
  destruct (Register stats [] _); [discriminate|].
  destruct (Register stats [_] _); [discriminate|].
  intros [= <-]. cbn. repeat split; assumption.
Qed.

(** Past the three checks, a registry that takes both collectors lets the
    constructor return. *)
Lemma NewUpdater_returns certs n lookback lookforward period saClient caClient
    stats clock :
  1 <= n -> period < 7 * 24 * time.Hour ->
  Z.rem (Int64.add lookback lookforward) n = 0 ->
  Register stats [] "crl_updater_ticks" = None ->
  Register stats ["crl_updater_ticks"%string] "crl_updater_generated" = None ->
  exists cu,
    NewUpdater certs n lookback lookforward period saClient caClient stats
               clock = Returns (inr cu).
Proof.
  intros Hn Hp Hw H1 H2.
  unfold NewUpdater, Int64.rem, time.Nanoseconds, MustRegister.
  destruct (Z.ltb_spec n 1); [lia|].
  destruct (Z.leb_spec (7 * 24 * time.Hour) period); [lia|].
  destruct (decide (n = 0)); [lia|].
  rewrite Hw, H1, H2. cbn. eauto.
Qed.

Lemma issuersByNameID_size (l : list Certificate) (m : gmap Z Certificate) :
  (size (foldl (fun m issuer => <[NameID issuer := issuer]> m) m l)
   <= size m + length l)%nat.
Proof.
  revert m. induction l as [|c l IH]; intros m; cbn [foldl length]; [lia|].
  etransitivity; [apply IH|].
  destruct (m !! NameID c) eqn:Hm.
  - rewrite map_size_insert_Some by eauto. lia.
  - rewrite map_size_insert_None by assumption. lia.
Qed.

(** The map an updater is built with is keyed by the name ID of its
    certificates: what is found under an ID is a certificate of the list with
    that ID, every certificate of the list has its ID in the map, and the map
    is no larger than the list. *)
Theorem NewUpdater_issuers certs n lookback lookforward period saClient
    caClient stats clock cu :
  NewUpdater certs n lookback lookforward period saClient caClient stats clock
    = Returns (inr cu) ->
  (forall id c, issuers cu !! id = Some c -> NameID c = id /\ c ∈ certs)
  /\ (forall c, c ∈ certs -> exists c', issuers cu !! NameID c = Some c')
  /\ (size (issuers cu) <= length certs)%nat.
Proof.
  intros Hnew. apply NewUpdater_inr in Hnew as (_ & _ & _ & -> & _).
  split; [|split].
  - intros id c. rewrite issuersByNameID_lookup. intros Hlast.
    apply last_Some_elem_of, list_elem_of_filter in Hlast. tauto.
  - intros c Hc. rewrite issuersByNameID_lookup.
    apply last_is_Some. intros Hnil.
    assert (Hin : c ∈ filter (fun c' => NameID c' = NameID c) certs)
      by (apply list_elem_of_filter; auto).
    rewrite Hnil in Hin. inversion Hin.
  - unfold issuersByNameID.
    pose proof (issuersByNameID_size certs ∅) as Hsize.
    rewrite map_size_empty in Hsize. exact Hsize.
Qed.

(** With an empty list of issuers a tick has one run: it reads the clock
    twice, observes "success" under "all", and does nothing else. *)
Theorem tick_no_issuers n lookback lookforward period saClient caClient
    stats clock cu h r :
  NewUpdater [] n lookback lookforward period saClient caClient stats clock
    = Returns (inr cu) ->
  let start := Now clock h in
  let now := Now clock (h ++ [EvNow start]) in
  tick cu h r
  <-> r = (h ++ [EvNow start; EvNow now;
                 EvObserve "all" "success" (time.Sub now start)],
           Returns tt).
Proof.
  intros Hnew. apply NewUpdater_inr in Hnew as (_ & _ & _ & Hiss & Hrest).
  destruct Hrest as (_ & _ & _ & _ & _ & _ & Hclk).
  assert (Hrun : tick_over cu [] h
                 = (h ++ [EvNow (Now clock h);
                          EvNow (Now clock (h ++ [EvNow (Now clock h)]));
                          EvObserve "all" "success"
                            (time.Sub (Now clock (h ++ [EvNow (Now clock h)]))
                                      (Now clock h))],
                    Returns tt)).
  { unfold tick_over. cbn [tick_issuers]. rewrite Hclk.
    cbv zeta. rewrite <- app_assoc. reflexivity. }
  cbv zeta. unfold tick. rewrite Hiss. cbn [issuersByNameID foldl].
  rewrite map_to_list_empty. split.
  - intros (order & Hperm & ->). apply Permutation_nil_r in Hperm. subst order.
    exact Hrun.
  - intros ->. exists []. split; [reflexivity | symmetry; exact Hrun].
Qed.

Lemma getWindowForShard_zero cu atTime shardID :
  numShards cu = 0 \/ windowWidth cu = 0 ->
  getWindowForShard cu atTime shardID = None.
Proof.
  unfold getWindowForShard, Int64.rem, Int64.quot, time.Nanoseconds.
  fold (windowWidth cu).
  destruct (decide (numShards cu = 0)); [reflexivity|].
  destruct (decide (windowWidth cu = 0)); [reflexivity|]. tauto.
Qed.

(** The first turn of an updater whose window is zero panics. *)
Lemma tickIssuer_zero_window cu atTime id issuer h :
  1 <= numShards cu -> windowWidth cu = 0 ->
  issuers cu !! id = Some issuer ->
  let start := Now (clk cu) h in
  let now := Now (clk cu) (h ++ [EvNow start]) in
  tickIssuer cu atTime id h =
    (h ++ [EvNow start; EvNow now;
           EvObserve (Subject_CommonName issuer) "success" (time.Sub now start)],
     Panics).
Proof.
  intros Hn HW Hiss. rewrite tickIssuer_unfold, Hiss. cbv zeta.
  destruct (Z.to_nat (numShards cu)) as [|m] eqn:Hm; [lia|].
  cbn [tickIssuer_shards]. unfold bind at 1, tickIssuer_shard.
  assert (Hw : getWindowForShard cu atTime 0 = None)
    by (apply getWindowForShard_zero; auto).
  rewrite Hw. cbn [panic fst snd resultLabel].
  rewrite <- app_assoc. reflexivity.
Qed.

(** Lookback and lookforward both zero pass the checks of the constructor,
    for any shard count from 1 and any update period below 7 days, and with a
    registry that takes the two collectors an updater is returned.  With it
    [getWindowForShard] panics on every input, [tickIssuer] panics before it
    calls a collaborator, observing the issuer under "success" on the way,
    and every run of [tick] panics as soon as the map has an issuer. *)
Theorem NewUpdater_zero_window certs n period saClient caClient stats clock :
  1 <= n -> period < 7 * 24 * time.Hour ->
  Register stats [] "crl_updater_ticks" = None ->
  Register stats ["crl_updater_ticks"%string] "crl_updater_generated" = None ->
  exists cu,
    NewUpdater certs n 0 0 period saClient caClient stats clock
      = Returns (inr cu)
    /\ (forall atTime shardID, getWindowForShard cu atTime shardID = None)
    /\ (forall atTime id issuer h,
          issuers cu !! id = Some issuer ->
          let start := Now clock h in
          let now := Now clock (h ++ [EvNow start]) in
          tickIssuer cu atTime id h =
            (h ++ [EvNow start; EvNow now;
                   EvObserve (Subject_CommonName issuer) "success"
                             (time.Sub now start)],
             Panics))
    /\ (certs <> [] -> forall h r, tick cu h r -> snd r = Panics).
Proof.
  intros Hn Hp H1 H2.
  destruct (NewUpdater_returns certs n 0 0 period saClient caClient stats clock
              Hn Hp) as [cu Hnew]; try assumption.
  { change (Int64.add 0 0) with 0. apply Z.rem_0_l. lia. }
  exists cu. split; [exact Hnew|].
  apply NewUpdater_inr in Hnew
    as (_ & _ & _ & Hiss & HnS & Hlb & Hlf & _ & _ & _ & Hclk).
  assert (HW : windowWidth cu = 0)
    by (unfold windowWidth; rewrite Hlb, Hlf; reflexivity).
  split; [|split].
  - intros atTime shardID. apply getWindowForShard_zero. auto.
  - intros atTime id issuer h Hid. rewrite <- Hclk.
    apply tickIssuer_zero_window; [lia | assumption | assumption].
  - intros Hne h r (order & Hperm & ->). unfold tick_over.
    destruct order as [|[id iss] rest].
    + exfalso. apply Permutation_nil_l in Hperm. symmetry in Hperm.
      apply map_to_list_empty_iff in Hperm.
      destruct certs as [|c certs]; [congruence|].
      assert (Hc : exists c', issuers cu !! NameID c = Some c').
      { rewrite Hiss, issuersByNameID_lookup. apply last_is_Some.
        intros Hnil.
        assert (Hin : c ∈ filter (fun c' => NameID c' = NameID c) (c :: certs))
          by (apply list_elem_of_filter; split; [reflexivity | left]).
        rewrite Hnil in Hin. inversion Hin. }
      destruct Hc as [c' Hc']. rewrite Hperm, lookup_empty in Hc'. discriminate.
    + assert (Hid : issuers cu !! id = Some iss).
      { apply elem_of_map_to_list. rewrite <- Hperm. left. }
      cbn [tick_issuers]. unfold bind at 1, clkNow at 1.
      unfold bind at 1.
      rewrite (tickIssuer_zero_window cu _ id iss _ ltac:(lia) HW Hid).
      reflexivity.
Qed.

(** The constructor does not refuse an update period that is zero or
    negative: with a registry that takes the two collectors it returns an
    updater, and [Run] with that updater never ticks, however many values
    the ticker would send: its only run adds nothing to the events. *)
Theorem Run_never_ticks certs n lookback lookforward period saClient caClient
    stats clock :
  1 <= n -> period <= 0 -> Z.rem (Int64.add lookback lookforward) n = 0 ->
  Register stats [] "crl_updater_ticks" = None ->
  Register stats ["crl_updater_ticks"%string] "crl_updater_generated" = None ->
  exists cu,
    NewUpdater certs n lookback lookforward period saClient caClient stats
               clock = Returns (inr cu)
    /\ forall firings h r, Run cu firings h r <-> r = (h, Returns tt).
Proof.
  intros Hn Hp Hw H1 H2.
  destruct (NewUpdater_returns certs n lookback lookforward period saClient
              caClient stats clock Hn) as [cu Hnew]; try assumption.
  { unfold time.Hour, time.Second. lia. }
  exists cu. split; [exact Hnew|].
  apply NewUpdater_inr in Hnew as (_ & _ & _ & _ & _ & _ & _ & Hup & _).
  intros firings h r. unfold Run. rewrite Hup.
  destruct (Z.leb_spec period 0); [reflexivity | lia].
Qed.

(** What a list of one or two given events holds for the audit log and
    for the histogram. *)
Ltac project_events :=
  repeat match goal with
  | |- context [observations [?e]] =>
      let r := eval cbn in (observations [e]) in
      change (observations [e]) with r
  | |- context [observations [?e1; ?e2]] =>
      let r := eval cbn in (observations [e1; e2]) in
      change (observations [e1; e2]) with r
  | |- context [auditErrors [?e]] =>
      let r := eval cbn in (auditErrors [e]) in
      change (auditErrors [e]) with r
  | |- context [auditErrors [?e1; ?e2]] =>
      let r := eval cbn in (auditErrors [e1; e2]) in
      change (auditErrors [e1; e2]) with r
  end.

(** The issuers of a tick that does not panic. *)
Lemma tick_issuers_events cu l res h h' res' :
  Forall (fun p => issuers cu !! fst p = Some (snd p)) l ->
  tick_issuers cu l res h = (h', (res', Returns tt)) ->
  exists evs, h' = h ++ evs
    /\ fst <$> observations evs = (fun p => Subject_CommonName (snd p)) <$> l
    /\ length (auditErrors evs)
       = length (filter (fun o => snd o = "failed"%string) (observations evs))
    /\ res' = if decide (auditErrors evs = []) then res else "failed"%string.
Proof.
  intros Hl. revert res h. induction Hl as [|[id iss] l Hid _ IH]; intros res h Hrun.
  - cbn in Hrun. injection Hrun as <- <-. exists []. rewrite app_nil_r. auto.
  - cbn [fst snd] in Hid. cbn [tick_issuers] in Hrun.
    unfold bind at 1, clkNow at 1 in Hrun. unfold bind at 1 in Hrun.
    set (atTime := Now (clk cu) h) in *.
    rewrite tickIssuer_unfold, Hid in Hrun. cbv zeta in Hrun.
    destruct (tickIssuer_shards_events cu atTime id 0 (Z.to_nat (numShards cu))
                ((h ++ [EvNow atTime])
                   ++ [EvNow (Now (clk cu) (h ++ [EvNow atTime]))]))
      as (evsB & Hfst & Hall & _).
    destruct (tickIssuer_shards _ _ _ _ _ _) as [hb ob].
    cbn [fst snd] in Hfst, Hrun. subst hb.
    pose proof (observations_shardEvents _ Hall) as Hobs.
    pose proof (auditErrors_shardEvents _ Hall) as Haud.
    destruct ob as [[err|]|]; unfold ret in Hrun; cbn [resultLabel] in Hrun.
    + apply IH in Hrun as (evs & -> & Hnames & Hlen & Hres).
      eexists. rewrite <- !app_assoc. split; [reflexivity|].
      rewrite !observations_app, !auditErrors_app, Hobs, Haud.
      project_events.
      cbn [app fmap list_fmap fst snd].
      split; [f_equal; exact Hnames|].
      rewrite filter_cons_True by reflexivity. cbn [length].
      split; [f_equal; exact Hlen|].
      rewrite Hres. destruct (decide (auditErrors evs = [])); reflexivity.
    + apply IH in Hrun as (evs & -> & Hnames & Hlen & Hres).
      eexists. rewrite <- !app_assoc. split; [reflexivity|].
      rewrite !observations_app, !auditErrors_app, Hobs, Haud.
      project_events.
      cbn [app fmap list_fmap fst snd].
      split; [f_equal; exact Hnames|].
      rewrite filter_cons_False by (cbn; discriminate).
      split; [exact Hlen | exact Hres].
    + discriminate.
Qed.

(** A run of a tick that does not panic observes every issuer of the map
    once, under its name, in the order in which the map was visited, and
    then the whole tick under "all".  It writes one error to the audit log
    for each issuer observed as "failed", and the whole tick is "failed"
    exactly when there is such an error. *)
Theorem tick_observes_all cu h h' :
  tick cu h (h', Returns tt) ->
  exists evs obs res,
    h' = h ++ evs
    /\ observations evs = obs ++ [("all"%string, res)]
    /\ fst <$> obs
       ≡ₚ (fun p => Subject_CommonName (snd p)) <$> map_to_list (issuers cu)
    /\ length (auditErrors evs)
       = length (filter (fun o => snd o = "failed"%string) obs)
    /\ res = if decide (auditErrors evs = []) then "success"%string
             else "failed"%string.
Proof.
  intros (order & Hperm & Hrun). symmetry in Hrun. unfold tick_over in Hrun.
  destruct (tick_issuers cu order "success"
              (h ++ [EvNow (Now (clk cu) h)])) as [h1 [res o]] eqn:Hiss.
  injection Hrun as <- ->.
  apply tick_issuers_events in Hiss as (evs & -> & Hnames & Hlen & Hres).
  2:{ apply Forall_forall. intros [id iss] Hin. rewrite Hperm in Hin.
      apply elem_of_map_to_list in Hin. exact Hin. }
  eexists _, (observations evs), res.
  rewrite <- !app_assoc. split; [reflexivity|].
  rewrite !observations_app, !auditErrors_app.
  project_events.
  cbn [app]. rewrite app_nil_r.
  split; [reflexivity|]. split; [|split; assumption].
  rewrite Hnames. apply fmap_Permutation. exact Hperm.
Qed.

End Ticks.

(** ** The further properties on the concrete scenarios *)

Lemma getWindowForShard_width_witness :
  let cu := Scenario.windowsOnly 5 0 10 in
  exists s, getWindowForShard cu Scenario.epoch (-7) = Some (s, s + shardWidth cu).
Proof.
  apply (getWindowForShard_width (Scenario.windowsOnly 5 0 10) Scenario.epoch (-7)).
  - vm_compute. discriminate.
  - reflexivity.
Defined.

Lemma getWindowForShard_residue_witness :
  let cu := Scenario.windowsOnly 5 0 10 in
  exists s e,
    getWindowForShard cu time.zero ((-1) mod numShards cu) = Some (s, e)
    /\ (getWindowForShard cu time.zero (-1) = Some (s, e)
        \/ getWindowForShard cu time.zero (-1)
           = Some (s - windowWidth cu, e - windowWidth cu)).
Proof.
  apply (getWindowForShard_residue (Scenario.windowsOnly 5 0 10) time.zero (-1)).
  - split; [vm_compute; discriminate | reflexivity].
  - reflexivity.
Defined.

Lemma getWindowForShard_bounds_witness :
  let cu := Scenario.windowsOnly 5 4 6 in
  exists s e, getWindowForShard cu 11 4 = Some (s, e)
    /\ 11 - lookbackPeriod cu <= e
    /\ (0 <= 11 -> e <= 11 + windowWidth cu).
Proof.
  apply (getWindowForShard_bounds (Scenario.windowsOnly 5 4 6) 11 4).
  - vm_compute. discriminate.
  - reflexivity.
  - vm_compute. split; [discriminate | reflexivity].
  - vm_compute. split; discriminate.
Defined.

Lemma getWindowForShard_follows_witness :
  let cu := Scenario.windowsOnly 5 0 10 in
  getWindowForShard cu (Scenario.epoch + 1) 0
  = (fun i => (fst i + (Scenario.epoch + 1 - Scenario.epoch),
               snd i + (Scenario.epoch + 1 - Scenario.epoch)))
      <$> getWindowForShard cu Scenario.epoch 0.
Proof.
  apply (getWindowForShard_follows (Scenario.windowsOnly 5 0 10)
           Scenario.epoch (Scenario.epoch + 1) 0).
  - vm_compute. discriminate.
  - reflexivity.
  - vm_compute. split; [discriminate | reflexivity].
  - vm_compute. discriminate.
  - vm_compute. discriminate.
Defined.

Lemma getWindowForShard_monotone_witness :
  let cu := Scenario.windowsOnly 5 0 10 in
  exists s1 s2,
    getWindowForShard cu 1 0 = Some (s1, s1 + shardWidth cu)
    /\ getWindowForShard cu 5 0 = Some (s2, s2 + shardWidth cu)
    /\ s1 <= s2.
Proof.
  apply (getWindowForShard_monotone (Scenario.windowsOnly 5 0 10) 1 5 0).
  - vm_compute. discriminate.
  - reflexivity.
  - vm_compute. split; [discriminate | reflexivity].
  - vm_compute. discriminate.
  - vm_compute. discriminate.
  - vm_compute. discriminate.
Defined.

Lemma tickIssuer_observes_once_witness :
  let cu := Scenario.endToEnd in
  exists evs o, tickIssuer cu Scenario.epoch 1 [] = ([] ++ evs, o)
    /\ observations evs = [("Issuer A"%string, resultLabel o)]
    /\ auditErrors evs = []
    /\ (resultLabel o = "failed"%string <-> exists err, o = Returns (Some err)).
Proof.
  apply (tickIssuer_observes_once Scenario.endToEnd Scenario.epoch 1
           Scenario.issuerA []).
  vm_compute. reflexivity.
Defined.

Lemma tickIssuer_unknown_issuer_witness :
  exists evs, tickIssuer Scenario.endToEnd Scenario.epoch 7 [] = ([] ++ evs, Panics)
    /\ observations evs = [].
Proof.
  apply (tickIssuer_unknown_issuer Scenario.endToEnd Scenario.epoch 7 []).
  vm_compute. reflexivity.
Defined.

Lemma tickIssuer_success_witness :
  let cu := Scenario.twoIssuers in
  let h' := fst (tickIssuer cu Scenario.epoch 2 []) in
  exists issuer evs,
    issuers cu !! 2 = Some issuer
    /\ h' = [] ++ evs
    /\ Some <$> requestsOf evs
       = requestFor cu Scenario.epoch 2 <$> seqZ 0 (numShards cu)
    /\ reportedShards evs = seqZ 0 (numShards cu)
    /\ observations evs = [(Subject_CommonName issuer, "success"%string)].
Proof.
  cbv zeta.
  apply (tickIssuer_success Scenario.twoIssuers Scenario.epoch 2 [] _).
  vm_compute. reflexivity.
Defined.

Lemma tickIssuer_shard_not_opened_witness :
  let cu := Scenario.withCA Scenario.downCA in
  let req := {| IssuerNameID := 1; ExpiresAfter := 3;
                ExpiresBefore := 8; RevokedBefore := 0 |} in
  tickIssuer_shard cu Scenario.epoch 1 0 []
  = ([] ++ [EvGetRevokedCerts req; EvGenerateCRL],
     Returns (Some (ErrConnectCA 0 "unavailable"))).
Proof.
  cbv zeta.
  apply (proj2 (tickIssuer_shard_not_opened (Scenario.withCA Scenario.downCA)
                  Scenario.epoch 1 0 []
                  {| IssuerNameID := 1; ExpiresAfter := 3;
                     ExpiresBefore := 8; RevokedBefore := 0 |}
                  "unavailable" ltac:(vm_compute; reflexivity))
               {| items := Scenario.threeEntries; fin := None |}).
  - reflexivity.
  - reflexivity.
Defined.

Lemma tickIssuer_shard_read_error_witness :
  let cu := Scenario.twoIssuers in
  let req := {| IssuerNameID := 1; ExpiresAfter := 3;
                ExpiresBefore := 8; RevokedBefore := 0 |} in
  tickIssuer_shard cu Scenario.epoch 1 0 [] =
    ([] ++ [EvGetRevokedCerts req; EvGenerateCRL;
            EvCASend (metadataFor Scenario.epoch 1)]
        ++ relayEvents [Scenario.entry "0a"]
        ++ [EvSARecv (RecvErr "transport is closing")],
     Returns (Some (ErrRecvEntry 0 "transport is closing"))).
Proof.
  cbv zeta.
  apply (tickIssuer_shard_read_error Scenario.twoIssuers Scenario.epoch 1 0 []
           {| IssuerNameID := 1; ExpiresAfter := 3;
              ExpiresBefore := 8; RevokedBefore := 0 |}
           {| items := [Scenario.entry "0a"];
              fin := Some "transport is closing"%string |}
           Scenario.echoStream "transport is closing").
  - vm_compute. reflexivity.
  - reflexivity.
  - reflexivity.
  - reflexivity.
  - cbn. auto.
Defined.

Lemma tickIssuer_shard_send_rejected_witness :
  let cu := Scenario.withCA Scenario.pickyCA in
  let req := {| IssuerNameID := 1; ExpiresAfter := 3;
                ExpiresBefore := 8; RevokedBefore := 0 |} in
  tickIssuer_shard cu Scenario.epoch 1 0 [] =
    ([] ++ [EvGetRevokedCerts req; EvGenerateCRL;
            EvCASend (metadataFor Scenario.epoch 1)]
        ++ relayEvents [Scenario.entry "0a"]
        ++ [EvSARecv (Msg (Scenario.entry "0b"));
            EvCASend (GenerateCRLRequest_Entry (Scenario.entry "0b"))],
     Returns (Some (ErrSendEntry 0 "stream closed"))).
Proof.
  cbv zeta.
  apply (tickIssuer_shard_send_rejected (Scenario.withCA Scenario.pickyCA)
           Scenario.epoch 1 0 []
           {| IssuerNameID := 1; ExpiresAfter := 3;
              ExpiresBefore := 8; RevokedBefore := 0 |}
           {| items := Scenario.threeEntries; fin := None |}
           Scenario.pickyStream
           [Scenario.entry "0a"] (Scenario.entry "0b") [Scenario.entry "0c"]
           "stream closed").
  - vm_compute. reflexivity.
  - reflexivity.
  - reflexivity.
  - reflexivity.
  - cbn. auto.
  - reflexivity.
Defined.

Lemma tickIssuer_shard_unparsed_witness :
  let cu := Scenario.withCA Scenario.truncatingCA in
  let req := {| IssuerNameID := 1; ExpiresAfter := 3;
                ExpiresBefore := 8; RevokedBefore := 0 |} in
  tickIssuer_shard cu Scenario.epoch 1 0 [] =
    ([] ++ ([EvGetRevokedCerts req; EvGenerateCRL;
             EvCASend (metadataFor Scenario.epoch 1)]
            ++ relayEvents Scenario.threeEntries ++ [EvSARecv EOF]
            ++ map (fun c => EvCARecv (Msg c)) [[Byte.x01]])
        ++ [EvCARecv EOF; EvParseDERCRL (concat [[Byte.x01]])],
     Returns (Some (ErrParseCRL 0 "asn1: syntax error"))).
Proof.
  cbv zeta.
  apply (proj2 (tickIssuer_shard_unparsed (Scenario.withCA Scenario.truncatingCA)
                  Scenario.epoch 1 0 []
                  {| IssuerNameID := 1; ExpiresAfter := 3;
                     ExpiresBefore := 8; RevokedBefore := 0 |}
                  {| items := Scenario.threeEntries; fin := None |}
                  Scenario.truncatingStream "asn1: syntax error"
                  ltac:(vm_compute; reflexivity) eq_refl eq_refl eq_refl
                  ltac:(cbn; auto))).
  - reflexivity.
  - reflexivity.
Defined.

Lemma NewUpdater_issuers_witness :
  let certs := [Scenario.issuerA; Scenario.toyCertificate 1 "Issuer A2" Byte.x02;
                Scenario.issuerB] in
  let cu := {| issuers := issuersByNameID certs;
               numShards := 2; lookbackPeriod := 0; lookforwardPeriod := 10;
               updatePeriod := time.Hour;
               sa := Scenario.shardedSA; ca := Scenario.echoCA;
               tickHistogram := "crl_updater_ticks";
               generatedCounter := "crl_updater_generated";
               clk := Scenario.fixedClock 0 |} in
  (forall id c, issuers cu !! id = Some c -> NameID c = id /\ c ∈ certs)
  /\ (forall c, c ∈ certs -> exists c', issuers cu !! NameID c = Some c')
  /\ (size (issuers cu) <= length certs)%nat.
Proof.
  cbv zeta.
  apply (NewUpdater_issuers
           [Scenario.issuerA; Scenario.toyCertificate 1 "Issuer A2" Byte.x02;
            Scenario.issuerB]
           2 0 10 time.Hour Scenario.shardedSA
           Scenario.echoCA Scenario.freshRegistry (Scenario.fixedClock 0)).
  reflexivity.
Defined.

Lemma tick_no_issuers_witness :
  let cu : @crlUpdater Scenario.toyX509 :=
            {| issuers := issuersByNameID [];
               numShards := 2; lookbackPeriod := 0; lookforwardPeriod := 10;
               updatePeriod := time.Hour;
               sa := Scenario.shardedSA; ca := Scenario.echoCA;
               tickHistogram := "crl_updater_ticks";
               generatedCounter := "crl_updater_generated";
               clk := Scenario.fixedClock 5 |} in
  let r := ([EvNow 5; EvNow 5; EvObserve "all" "success" 0], Returns tt) in
  tick cu [] r
  <-> r = ([] ++ [EvNow 5; EvNow 5; EvObserve "all" "success" (time.Sub 5 5)],
           Returns tt).
Proof.
  cbv zeta.
  apply (tick_no_issuers 2 0 10 time.Hour Scenario.shardedSA Scenario.echoCA
           Scenario.freshRegistry (Scenario.fixedClock 5) _ []
           ([EvNow 5; EvNow 5; EvObserve "all" "success" 0], Returns tt)).
  reflexivity.
Defined.

Lemma NewUpdater_zero_window_witness :
  exists cu,
    NewUpdater [Scenario.issuerA] 2 0 0 time.Hour Scenario.shardedSA
               Scenario.echoCA Scenario.freshRegistry (Scenario.fixedClock 5)
      = Returns (inr cu)
    /\ (forall atTime shardID, getWindowForShard cu atTime shardID = None)
    /\ (forall atTime id issuer h,
          issuers cu !! id = Some issuer ->
          let start := Now (Scenario.fixedClock 5) h in
          let now := Now (Scenario.fixedClock 5) (h ++ [EvNow start]) in
          tickIssuer cu atTime id h =
            (h ++ [EvNow start; EvNow now;
                   EvObserve (Subject_CommonName issuer) "success"
                             (time.Sub now start)],
             Panics))
    /\ ([Scenario.issuerA] <> [] -> forall h r, tick cu h r -> snd r = Panics).
Proof.
  apply (NewUpdater_zero_window [Scenario.issuerA] 2 time.Hour
           Scenario.shardedSA Scenario.echoCA Scenario.freshRegistry
           (Scenario.fixedClock 5)).
  - vm_compute. discriminate.
  - reflexivity.
  - reflexivity.
  - reflexivity.
Defined.

Lemma Run_never_ticks_witness :
  exists cu,
    NewUpdater [Scenario.issuerA] 2 0 10 (- time.Hour) Scenario.shardedSA
               Scenario.echoCA Scenario.freshRegistry (Scenario.fixedClock 5)
      = Returns (inr cu)
    /\ forall firings h r, Run cu firings h r <-> r = (h, Returns tt).
Proof.
  apply (Run_never_ticks [Scenario.issuerA] 2 0 10 (- time.Hour)
           Scenario.shardedSA Scenario.echoCA Scenario.freshRegistry
           (Scenario.fixedClock 5)).
  - vm_compute. discriminate.
  - vm_compute. discriminate.
  - reflexivity.
  - reflexivity.
  - reflexivity.
Defined.

(** Issuer A is visited before issuer B, which is not the order of
    [map_to_list]. *)
Lemma tick_observes_all_witness :
  let cu := Scenario.twoIssuers in
  let order := [(1, Scenario.issuerA); (2, Scenario.issuerB)] in
  let h' := fst (tick_over cu order []) in
  exists evs obs res,
    h' = [] ++ evs
    /\ observations evs = obs ++ [("all"%string, res)]
    /\ fst <$> obs
       ≡ₚ (fun p : Z * @Certificate Scenario.toyX509 => Subject_CommonName (snd p))
           <$> map_to_list (issuers cu)
    /\ length (auditErrors evs)
       = length (filter (fun o => snd o = "failed"%string) obs)
    /\ res = if decide (auditErrors evs = []) then "success"%string
             else "failed"%string.
Proof.
  cbv zeta.
  apply (tick_observes_all Scenario.twoIssuers [] _).
  exists [(1, Scenario.issuerA); (2, Scenario.issuerB)]. split.
  - vm_compute. apply perm_swap.
  - vm_compute. reflexivity.
Defined.
